(** * The engine shell and the secure trie

    Shallow embedding of [packages/vm/src/index.ts] (class [VM]:
    constructor, [init], [create], [copy]) and of the class [SecureTrie]
    (keccak-keyed wrapper over the checkpoint trie).

    Objects that the TypeScript code shares by reference (state store,
    block store, chain parameters) live in an explicit heap indexed by
    locations, so that aliasing between an engine, its environment facade
    and the objects supplied in the options is visible in the statements. *)

From Stdlib Require Import ZArith.
From Stdlib.Strings Require Import Byte Ascii.
From stdpp Require Import base option list countable gmap strings fin_maps.

Local Open Scope Z_scope.

(** ** Buffers *)

#[global] Instance byte_eq_dec : EqDecision Byte.byte.
Proof.
  intros x y. destruct (Byte.eqb x y) eqn:E.
  - left. by apply Byte.byte_dec_bl.
  - right. intros ->. by rewrite Byte.byte_dec_lb in E.
Defined.

#[global] Instance byte_countable : Countable Byte.byte :=
  inj_countable Byte.to_N Byte.of_N Byte.of_to_N.

(** A Node [Buffer]: a finite sequence of bytes. *)
Abbreviation Buffer := (list Byte.byte).

(** ** The secure trie *)

Module SecureTrie.

(** JavaScript values that can reach the [val] argument of [put]: the
    declared type is [Buffer], the guard also caters for [undefined] and
    [null]. *)
Inductive JsVal :=
| VUndefined
| VNull
| VBuffer (b : Buffer).

(** [isFalsy] of [@ethereumjs/util] on those values: [undefined] and [null]
    are falsy, an object (every [Buffer], also the empty one) is not. *)
Definition isFalsy (v : JsVal) : bool :=
  match v with
  | VUndefined | VNull => true
  | VBuffer _ => false
  end.

(** [val.toString() === ''] on a buffer: the utf8 decoding of a buffer is
    the empty string exactly when the buffer has no byte (each byte or
    invalid sequence decodes to at least one code unit). Only reached when
    [isFalsy val] is false. *)
Definition toString_is_empty (v : JsVal) : bool :=
  match v with
  | VBuffer [] => true
  | _ => false
  end.

Section WithHash.

(** [keccak256] of [ethereum-cryptography/keccak]. *)
Variable keccak256 : Buffer -> Buffer.

(** The root commitment of a key/value content. *)
Variable rootOf : gmap Buffer Buffer -> Buffer.

(** Modelled from the spec: the Merkle-Patricia trie under [SecureTrie]
    ([CheckpointTrie] and its base [Trie], which are not among the
    sources): a finite mapping from keys to values in which an unset key
    reads as absent ([null]), deletion removes the key, and the root is
    determined by the content. *)
Record Trie := mkTrie { content : gmap Buffer Buffer }.

(** Modelled from the spec: [trie.root]. *)
Definition root (t : Trie) : Buffer := rootOf (content t).

(** Modelled from the spec: [super.get(key)]. *)
Definition Trie_get (t : Trie) (key : Buffer) : option Buffer :=
  content t !! key.

(** Modelled from the spec: [super.put(key, val)]. *)
Definition Trie_put (t : Trie) (key val : Buffer) : Trie :=
  mkTrie (<[key := val]> (content t)).

(** Modelled from the spec: [super.del(key)]. *)
Definition Trie_del (t : Trie) (key : Buffer) : Trie :=
  mkTrie (delete key (content t)).

(** [SecureTrie.get] *)
Definition get (t : Trie) (key : Buffer) : option Buffer :=
  let hash := keccak256 key in
  let value := Trie_get t hash in
  value.

(** [SecureTrie.del] *)
Definition del (t : Trie) (key : Buffer) : Trie :=
  let hash := keccak256 key in
  Trie_del t hash.

(** [SecureTrie.put] *)
Definition put (t : Trie) (key : Buffer) (val : JsVal) : Trie :=
  if isFalsy val || toString_is_empty val then
    del t key
  else
    match val with
    | VBuffer b =>
        let hash := keccak256 key in
        Trie_put t hash b
    | _ => t (* not reached: such a value is falsy *)
    end.

End WithHash.

(** A concrete hash and a concrete root, to run the definitions: the hash
    reverses the key, the root lists the content. *)
Definition sampleHash (key : Buffer) : Buffer := rev key.

Definition sampleRootOf (m : gmap Buffer Buffer) : Buffer :=
  concat ((fun kv : Buffer * Buffer => kv.1 ++ kv.2) <$> map_to_list m).

(** A trie with one key set. *)
Definition sampleTrie : Trie :=
  put sampleHash (mkTrie ∅) [Byte.x01; Byte.x02] (VBuffer [Byte.x2a]).

End SecureTrie.

(** ** The engine shell *)

Module VM.

(** Heap locations of the objects shared by reference. *)
Abbreviation loc := positive.

(** An [Address] of [ethereumjs-util] wraps a 20-byte buffer. *)
Abbreviation Address := Buffer.

(** The rule-set tags of the [Hardfork] enum that the constructor names,
    and [OtherHardfork] for every other tag [common.hardfork()] may return
    (a later fork such as shanghai, or a custom chain's tag). *)
Inductive Hardfork :=
| Chainstart | Homestead | Dao | TangerineWhistle | SpuriousDragon
| Byzantium | Constantinople | Petersburg | Istanbul | MuirGlacier
| Berlin | London | ArrowGlacier | MergeForkIdTransition | Merge
| OtherHardfork (tag : string).

#[global] Instance Hardfork_eq_dec : EqDecision Hardfork.
Proof. solve_decision. Defined.

(** The errors thrown by the constructor. One per [throw new Error(...)]:
    - [LegacyOptionRejected]: 'Chain/hardfork options are not allowed any
      more on initialization';
    - [UnsupportedAmendment eip]: 'EIP-<eip> is not supported by the VM';
    - [UnsupportedRuleSet hf]: 'Hardfork <hf> not set as supported in
      supportedHardforks';
    - [ConflictingHardforkSelectors]: 'The hardforkByBlockNumber and
      hardforkByTD options can't be used in conjunction';
    and two that the statements of the constructor raise themselves:
    - [ReferenceError name]: the evaluation of an identifier that the file
      neither imports nor declares ([TransientStorage] at line 255);
    - [ToTypeError input]: what [toType] throws on an input it does not
      convert (line 276). *)
Inductive VMError :=
| LegacyOptionRejected
| UnsupportedAmendment (eip : Z)
| UnsupportedRuleSet (hf : Hardfork)
| ConflictingHardforkSelectors
| ReferenceError (name : string)
| ToTypeError (input : Z).

#[global] Instance VMError_eq_dec : EqDecision VMError.
Proof. solve_decision. Defined.

Definition supportedEIPs : list Z :=
  [ 1153; 1559; 2315; 2537; 2565; 2718; 2929; 2930; 3074; 3198; 3529; 3540;
    3541; 3607; 3651; 3670; 3855; 3860; 4399 ].

Definition supportedHardforks : list Hardfork :=
  [ Chainstart; Homestead; Dao; TangerineWhistle; SpuriousDragon; Byzantium;
    Constantinople; Petersburg; Istanbul; MuirGlacier; Berlin; London;
    ArrowGlacier; MergeForkIdTransition; Merge ].

(** [Array.prototype.includes] *)
Definition includes `{EqDecision A} (l : list A) (x : A) : bool :=
  bool_decide (x ∈ l).

(** Modelled from the spec: the chain parameters ([Common], not among the
    sources), reduced to what the engine shell reads: the amendment numbers
    listed at construction ([eips()]) and the current rule-set tag
    ([hardfork()]). *)
Record Common := mkCommon { eips : list Z; hardfork : Hardfork }.

(** Modelled from the spec: an account ([Account] of [ethereumjs-util], not
    among the sources): nonce, balance, storage root and code hash. *)
Record Account := mkAccount {
  nonce : Z;
  balance : Z;
  stateRoot : Buffer;
  codeHash : Buffer;
}.

(** Modelled from the spec: the state store behind the state interface
    ([DefaultStateManager], not among the sources): the accounts, a LIFO
    journal holding for each open checkpoint the pre-image of the accounts,
    and the chain parameters it was built with. *)
Record StateStore := mkStateStore {
  accounts : gmap Address Account;
  journal : list (gmap Address Account);
  st_common : loc;
}.

(** The transient storage held by an environment facade:
    [(address, key) -> value]. *)
Abbreviation TransientStorage := (gmap (Address * Buffer) Buffer).

(** The environment facade, [new EEI(state, common, transient, blockchain)]. *)
Record EEI := mkEEI {
  state : loc;
  eei_common : loc;
  eei_transientStorage : TransientStorage;
  eei_blockchain : loc;
}.

(** The interpreter, [new EVM({ common, blockchain, eei })]. *)
Record EVM := mkEVM {
  evm_common : loc;
  evm_blockchain : loc;
  evm_eei : EEI;
}.

(** The options record [VMOpts]. A field is [None] when the property is
    [undefined] (absent, or present with that value: the constructor does
    not tell the two apart). [has_chain] and [has_hardfork] say whether the
    record has the legacy keys ['chain'] and ['hardfork'] at all
    (['chain' in opts]). Objects are given by their heap location. *)
Module VMOpts.

Record t := mk {
  has_chain : bool;
  has_hardfork : bool;
  common : option loc;
  stateManager : option loc;
  blockchain : option loc;
  activatePrecompiles : option bool;
  activateGenesisState : option bool;
  hardforkByBlockNumber : option bool;
  hardforkByTD : option Z;
  eei : option EEI;
  evm : option EVM;
}.

(** [{}] *)
Definition empty : t :=
  mk false false None None None None None None None None None.

End VMOpts.

(** Truth value of an optional boolean property and of an optional object. *)
Definition truthy_bool (o : option bool) : bool := default false o.

Definition truthy_obj {A} (o : option A) : bool :=
  match o with Some _ => true | None => false end.

(** [x !== undefined] *)
Definition defined {A} (o : option A) : bool :=
  match o with Some _ => true | None => false end.

(** The class [VM]. The cached [_emit] is left out: nothing in this file
    of the source calls it. *)
Record VM := mkVM {
  stateManager : loc;
  blockchain : loc;
  _common : loc;
  evm : EVM;
  eei : EEI;
  _opts : VMOpts.t;
  _isInitialized : bool;
  _hardforkByBlockNumber : bool;
  _hardforkByTD : option Z;
  DEBUG : bool;
}.

Definition set_isInitialized (b : bool) (vm : VM) : VM :=
  mkVM (stateManager vm) (blockchain vm) (_common vm) (evm vm) (eei vm)
       (_opts vm) b (_hardforkByBlockNumber vm) (_hardforkByTD vm) (DEBUG vm).

(** The calls that [init] makes on its collaborators, in the order made. *)
Inductive Call :=
| Call_blockchain_init (bc : loc)
| Call_generateCanonicalGenesis (st : loc)
| Call_checkpoint (st : loc)
| Call_getAccount (st : loc) (a : Address)
| Call_putAccount (st : loc) (a : Address) (acct : Account)
| Call_commit (st : loc).

(** The reads and writes of accounts on the store [st]. *)
Definition is_account_call (st : loc) (c : Call) : Prop :=
  match c with
  | Call_getAccount st' _ | Call_putAccount st' _ _ => st' = st
  | _ => False
  end.

(** What the engine shell takes from its collaborators, none of which is
    among the sources. *)
Class Collaborators := {
  (** [KECCAK256_NULL], the hash of the empty code, and [KECCAK256_RLP],
      the root of the empty trie *)
  KECCAK256_NULL : Buffer;
  KECCAK256_RLP : Buffer;
  (** the content of a block store, [new Blockchain({ common })] and
      [blockchain._init()] *)
  BlockchainState : Type;
  Blockchain_new : loc -> BlockchainState;
  Blockchain__init : BlockchainState -> BlockchainState;
  (** [new Common({ chain: Chain.Mainnet })] *)
  Common_mainnet : Common;
  (** what [generateCanonicalGenesis()] does to a state store built with
      the given chain parameters *)
  Store_generateCanonicalGenesis : Common -> StateStore -> StateStore;
  (** the keys of the map [getActivePrecompiles(common)], in iteration
      order *)
  getActivePrecompiles : Common -> list string;
  (** [new Address(Buffer.from(addressStr, 'hex'))] *)
  Address_fromHex : string -> Address;
  (** the state root of an account content *)
  stateRootOf : gmap Address Account -> Buffer;
  (** whether [process.env.DEBUG] is set *)
  process_env_DEBUG : bool;
  (** [toType(input, TypeOutput.BigInt)] of [ethereumjs-util] on a
      quantity: the big integer, or [None] where it throws *)
  toType_BigInt : Z -> option Z;
}.

Section Engine.

Context `{Collaborators}.

(** *** Accounts *)

(** Modelled from the spec: [new Account()], the empty account synthesised
    on a miss ([Account] is not among the sources). *)
Definition Account_new : Account :=
  mkAccount 0 0 KECCAK256_RLP KECCAK256_NULL.

(** Modelled from the spec: [Account.fromAccountData] (not among the
    sources): an absent field takes the value it has in the empty account. *)
Definition fromAccountData (n b : option Z) (sr ch : option Buffer) : Account :=
  mkAccount (default 0 n) (default 0 b)
            (default KECCAK256_RLP sr) (default KECCAK256_NULL ch).

(** Modelled from the spec: [account.isEmpty()] (not among the sources):
    nonce = 0, balance = 0 and the code hash is the hash of the empty code. *)
Definition isEmpty (a : Account) : bool :=
  (balance a =? 0) && (nonce a =? 0) && bool_decide (codeHash a = KECCAK256_NULL).

(** *** The state interface on one store *)

(** Modelled from the spec: the state interface of the store (not among
    the sources). [getAccount(addr)]: an empty account is synthesised on a
    miss. *)
Definition Store_getAccount (st : StateStore) (a : Address) : Account :=
  default Account_new (accounts st !! a).

(** Modelled from the spec: [putAccount(addr, acct)]. *)
Definition Store_putAccount (a : Address) (acct : Account) (st : StateStore)
  : StateStore :=
  mkStateStore (<[a := acct]> (accounts st)) (journal st) (st_common st).

(** Modelled from the spec: [checkpoint()] pushes the pre-image. *)
Definition Store_checkpoint (st : StateStore) : StateStore :=
  mkStateStore (accounts st) (accounts st :: journal st) (st_common st).

(** Modelled from the spec: [commit()] folds the top level into its parent. *)
Definition Store_commit (st : StateStore) : StateStore :=
  mkStateStore (accounts st) (tail (journal st)) (st_common st).

(** Modelled from the spec: [revert()] restores the pre-image of the top
    level. *)
Definition Store_revert (st : StateStore) : StateStore :=
  match journal st with
  | pre :: j => mkStateStore pre j (st_common st)
  | [] => st
  end.

(** Modelled from the spec: [getStateRoot()], the root of the accounts. *)
Definition getStateRoot (st : StateStore) : Buffer := stateRootOf (accounts st).

(** Modelled from the spec: [new DefaultStateManager({ common })], a store
    with no account and no open checkpoint. *)
Definition DefaultStateManager_new (c : loc) : StateStore :=
  mkStateStore ∅ [] c.

(** *** The heap *)

Record World := mkWorld {
  commons : gmap loc Common;
  states : gmap loc StateStore;
  chains : gmap loc BlockchainState;
  trace : list Call;
}.

#[global] Instance Common_inhabited : Inhabited Common :=
  populate Common_mainnet.

#[global] Instance StateStore_inhabited : Inhabited StateStore :=
  populate (DefaultStateManager_new 1%positive).

#[global] Instance BlockchainState_inhabited : Inhabited BlockchainState :=
  populate (Blockchain_new 1%positive).

Definition set_commons (f : gmap loc Common -> gmap loc Common) (w : World) :=
  mkWorld (f (commons w)) (states w) (chains w) (trace w).

Definition set_states (f : gmap loc StateStore -> gmap loc StateStore) (w : World) :=
  mkWorld (commons w) (f (states w)) (chains w) (trace w).

Definition set_chains (f : gmap loc BlockchainState -> gmap loc BlockchainState)
  (w : World) :=
  mkWorld (commons w) (states w) (f (chains w)) (trace w).

Definition log (c : Call) (w : World) : World :=
  mkWorld (commons w) (states w) (chains w) (trace w ++ [c]).

(** Dereferencing. *)
Definition common_at (w : World) (l : loc) : Common := commons w !!! l.
Definition state_at (w : World) (l : loc) : StateStore := states w !!! l.
Definition chain_at (w : World) (l : loc) : BlockchainState := chains w !!! l.

(** The account at an address of a store of the heap, as [getAccount]
    returns it. *)
Definition account_at (w : World) (st : loc) (a : Address) : Account :=
  Store_getAccount (state_at w st) a.

(** *** The calls on the collaborators, each recorded in the trace *)

(** [blockchain._init()] *)
Definition blockchain_init (bc : loc) (w : World) : World :=
  log (Call_blockchain_init bc) (set_chains (alter Blockchain__init bc) w).

(** [state.generateCanonicalGenesis()] *)
Definition generateCanonicalGenesis (st : loc) (w : World) : World :=
  log (Call_generateCanonicalGenesis st)
      (set_states
         (alter (fun s => Store_generateCanonicalGenesis (common_at w (st_common s)) s) st)
         w).

(** [state.checkpoint()] *)
Definition checkpoint (st : loc) (w : World) : World :=
  log (Call_checkpoint st) (set_states (alter Store_checkpoint st) w).

(** [state.getAccount(address)] *)
Definition getAccount (st : loc) (a : Address) (w : World) : Account * World :=
  (Store_getAccount (state_at w st) a, log (Call_getAccount st a) w).

(** [state.putAccount(address, account)] *)
Definition putAccount (st : loc) (a : Address) (acct : Account) (w : World) : World :=
  log (Call_putAccount st a acct) (set_states (alter (Store_putAccount a acct) st) w).

(** [state.commit()] *)
Definition commit (st : loc) (w : World) : World :=
  log (Call_commit st) (set_states (alter Store_commit st) w).

(** *** [init] *)

(** The body of the loop over the active precompiles. *)
Definition prime_precompile (st : loc) (w : World) (addressStr : string) : World :=
  let address := Address_fromHex addressStr in
  let '(account, w) := getAccount st address w in
  if isEmpty account then
    let newAccount :=
      fromAccountData None (Some 1) (Some (stateRoot account)) None in
    putAccount st address newAccount w
  else w.

(** [if (!this._opts.stateManager) { if (this._opts.activateGenesisState) ... }] *)
Definition init_genesis (vm : VM) (w : World) : World :=
  if negb (truthy_obj (VMOpts.stateManager (_opts vm))) then
    if truthy_bool (VMOpts.activateGenesisState (_opts vm)) then
      generateCanonicalGenesis (state (eei vm)) w
    else w
  else w.

(** [if (this._opts.activatePrecompiles && !this._opts.stateManager) { ... }] *)
Definition init_precompiles (vm : VM) (w : World) : World :=
  if truthy_bool (VMOpts.activatePrecompiles (_opts vm))
     && negb (truthy_obj (VMOpts.stateManager (_opts vm))) then
    let w := checkpoint (state (eei vm)) w in
    let w := foldl (prime_precompile (state (eei vm))) w
                   (getActivePrecompiles (common_at w (_common vm))) in
    commit (state (eei vm)) w
  else w.

(** [VM.init] *)
Definition init (vm : VM) (w : World) : VM * World :=
  if _isInitialized vm then (vm, w)
  else
    let w := blockchain_init (blockchain vm) w in
    let w := init_genesis vm w in
    let w := init_precompiles vm w in
    (set_isInitialized true vm, w).

(** *** Computations that allocate and may throw *)

Definition M (A : Type) : Type := World -> VMError + (A * World).

#[global] Instance M_ret : MRet M := fun A a w => inr (a, w).

#[global] Instance M_bind : MBind M := fun A B f m w =>
  match m w with
  | inl e => inl e
  | inr (a, w') => f a w'
  end.

Definition throw {A} (e : VMError) : M A := fun _ => inl e.

(** A computation that cannot throw. *)
Definition lift {A} (f : World -> A * World) : M A := fun w => inr (f w).

(** [new Common(...)], [new DefaultStateManager(...)], [new Blockchain(...)]
    and the three [copy()] methods create a new object. *)
Definition alloc_common (c : Common) : M loc := fun w =>
  let l := fresh (dom (commons w)) in inr (l, set_commons <[l := c]> w).

Definition alloc_state (s : StateStore) : M loc := fun w =>
  let l := fresh (dom (states w)) in inr (l, set_states <[l := s]> w).

Definition alloc_chain (b : BlockchainState) : M loc := fun w =>
  let l := fresh (dom (chains w)) in inr (l, set_chains <[l := b]> w).

(** *** The constructor *)

(** Lines 195-199: the legacy keys. *)
Definition rejectLegacy (opts : VMOpts.t) : M unit :=
  if VMOpts.has_chain opts || VMOpts.has_hardfork opts
  then throw LegacyOptionRejected
  else mret tt.

(** Lines 201-216: [this._common]. The loop throws at the first amendment
    outside [supportedEIPs]. *)
Definition setupCommon (opts : VMOpts.t) : M loc :=
  match VMOpts.common opts with
  | Some c => fun w =>
      match List.find (fun eip => negb (includes supportedEIPs eip))
                      (eips (common_at w c)) with
      | Some eip => inl (UnsupportedAmendment eip)
      | None => inr (c, w)
      end
  | None => alloc_common Common_mainnet
  end.

(** Lines 218-239: the rule-set tag. *)
Definition checkHardfork (c : loc) : M unit := fun w =>
  if negb (includes supportedHardforks (hardfork (common_at w c)))
  then inl (UnsupportedRuleSet (hardfork (common_at w c)))
  else inr (tt, w).

(** Lines 252-256: the environment facade. Without [opts.eei] the
    constructor evaluates [new EEI(this.stateManager, this._common,
    new TransientStorage(), this.blockchain)]; [TransientStorage] is neither
    imported nor declared in the file, so the evaluation of the third
    argument throws a ReferenceError and no facade is made. *)
Definition setupEEI (opts : VMOpts.t) : M EEI :=
  match VMOpts.eei opts with
  | Some e => mret e
  | None => throw (ReferenceError "TransientStorage")
  end.

(** Lines 269-273: the two hardfork selectors. *)
Definition checkSelectors (opts : VMOpts.t) : M unit :=
  if defined (VMOpts.hardforkByBlockNumber opts)
     && defined (VMOpts.hardforkByTD opts)
  then throw ConflictingHardforkSelectors
  else mret tt.

(** Line 276: [toType(opts.hardforkByTD, TypeOutput.BigInt)], which hands
    [undefined] on. *)
Definition convertTD (opts : VMOpts.t) : M (option Z) :=
  match VMOpts.hardforkByTD opts with
  | Some td =>
      match toType_BigInt td with
      | Some v => mret (Some v)
      | None => throw (ToTypeError td)
      end
  | None => mret None
  end.

(** Lines 195-216 as a whole: the chain parameters the constructor holds as
    [this._common] when it comes to the rule-set check. *)
Definition resolveCommon (opts : VMOpts.t) : M loc :=
  rejectLegacy opts ;; setupCommon opts.

(** Lines 195-239 as a whole: the checks made before the collaborators are
    set up. *)
Definition earlierChecks (opts : VMOpts.t) : M loc :=
  c ← resolveCommon opts ;
  checkHardfork c ;;
  mret c.

(** [new VM(opts)] *)
Definition constructor (opts : VMOpts.t) : M VM :=
  rejectLegacy opts ;;
  c ← setupCommon opts ;
  checkHardfork c ;;
  sm ← match VMOpts.stateManager opts with
       | Some sm => mret sm
       | None => alloc_state (DefaultStateManager_new c)
       end ;
  bc ← match VMOpts.blockchain opts with
       | Some bc => mret bc
       | None => alloc_chain (Blockchain_new c)
       end ;
  eei ← setupEEI opts ;
  let evm := match VMOpts.evm opts with
             | Some e => e
             | None => mkEVM c bc eei
             end in
  checkSelectors opts ;;
  td ← convertTD opts ;
  mret (mkVM sm bc c evm eei opts false
             (default false (VMOpts.hardforkByBlockNumber opts))
             td
             process_env_DEBUG).

(** [VM.create] *)
Definition create (opts : VMOpts.t) : M VM :=
  vm ← constructor opts ;
  lift (init vm).

(** *** [copy] *)

(** Modelled from the spec: the [copy()] methods of the state store, the
    block store and the chain parameters (none among the sources) return a
    clone: a new object with the content of the receiver. *)
Definition StateManager_copy (l : loc) : M loc := fun w =>
  alloc_state (state_at w l) w.

Definition Blockchain_copy (l : loc) : M loc := fun w =>
  alloc_chain (chain_at w l) w.

Definition Common_copy (l : loc) : M loc := fun w =>
  alloc_common (common_at w l) w.

(** [VM.copy] *)
Definition copy (vm : VM) : M VM :=
  sm ← StateManager_copy (stateManager vm) ;
  bc ← Blockchain_copy (blockchain vm) ;
  c ← Common_copy (_common vm) ;
  create (VMOpts.mk false false (Some c) (Some sm) (Some bc)
                    None None None None None None).

(** The chain parameters pass the two checks of the constructor. *)
Definition supported (c : Common) : Prop :=
  Forall (fun eip => eip ∈ supportedEIPs) (eips c) /\
  hardfork c ∈ supportedHardforks.

End Engine.

(** *** A concrete set of collaborators

    Used to run the definitions on concrete inputs: the block store content
    is the flag set by [_init()], the default chain parameters are mainnet
    at london, genesis funds the second precompile address, two precompiles
    are active, the state root lists the accounts, and [toType] throws on a
    negative quantity. *)

Definition hexDigit (c : ascii) : option N :=
  let n := N_of_ascii c in
  if ((48 <=? n) && (n <=? 57))%N then Some (n - 48)%N
  else if ((97 <=? n) && (n <=? 102))%N then Some (n - 87)%N
  else if ((65 <=? n) && (n <=? 70))%N then Some (n - 55)%N
  else None.

(** [Buffer.from(s, 'hex')]: bytes from pairs of hexadecimal digits, up to
    the first pair that is not one. *)
Fixpoint Buffer_fromHex (s : string) : Buffer :=
  match s with
  | String a (String b rest) =>
      match hexDigit a, hexDigit b with
      | Some x, Some y =>
          match Byte.of_N (16 * x + y) with
          | Some byte => byte :: Buffer_fromHex rest
          | None => []
          end
      | _, _ => []
      end
  | _ => []
  end.

Definition sampleGenesisAddress : Address :=
  Buffer_fromHex "0000000000000000000000000000000000000002".

#[export] Instance sampleCollaborators : Collaborators := {|
  KECCAK256_NULL := Buffer_fromHex "c5d2";
  KECCAK256_RLP := Buffer_fromHex "56e8";
  BlockchainState := bool;
  Blockchain_new := fun _ => false;
  Blockchain__init := fun _ => true;
  Common_mainnet := mkCommon [] London;
  Store_generateCanonicalGenesis := fun _ st =>
    mkStateStore
      (<[sampleGenesisAddress :=
           mkAccount 0 5 (Buffer_fromHex "aa") (Buffer_fromHex "c5d2")]>
         (accounts st))
      (journal st) (st_common st);
  getActivePrecompiles := fun _ =>
    [ "0000000000000000000000000000000000000001";
      "0000000000000000000000000000000000000002" ]%string;
  Address_fromHex := Buffer_fromHex;
  stateRootOf := fun m => concat (fst <$> map_to_list m);
  process_env_DEBUG := false;
  toType_BigInt := fun input => if (0 <=? input)%Z then Some input else None;
|}.

(** The heap with nothing allocated and nothing called. *)
Definition emptyWorld `{Collaborators} : World := mkWorld ∅ ∅ ∅ [].

(** *** Concrete options, engines and heaps *)

(** Options asking for genesis and for precompile priming, an engine
    holding them that is bound, facade and interpreter included, to the
    objects at location 1, and a heap with these objects. *)
Definition sampleOpts : VMOpts.t :=
  VMOpts.mk false false None None None (Some true) (Some true)
            None None None None.

Definition sampleVM : VM :=
  mkVM 1 1 1 (mkEVM 1 1 (mkEEI 1 1 ∅ 1)) (mkEEI 1 1 ∅ 1) sampleOpts
       false false None false.

Definition sampleWorld : World :=
  mkWorld {[ 1%positive := mkCommon [] London ]}
          {[ 1%positive := DefaultStateManager_new 1 ]}
          {[ 1%positive := false ]}
          [].

(** An engine built over an external state store, with both optional
    steps asked for all the same. *)
Definition externalStoreOpts : VMOpts.t :=
  VMOpts.mk false false None (Some 1%positive) None (Some true) (Some true)
            None None None None.

Definition externalStoreVM : VM :=
  mkVM 1 1 1 (mkEVM 1 1 (mkEEI 1 1 ∅ 1)) (mkEEI 1 1 ∅ 1) externalStoreOpts
       false false None false.

(** Chain parameters at a rule-set tag outside the supported ones, and
    chain parameters listing an amendment outside the supported ones. *)
Definition shanghaiWorld : World :=
  mkWorld {[ 1%positive := mkCommon [] (OtherHardfork "shanghai") ]} ∅ ∅ [].

Definition eip3675World : World :=
  mkWorld {[ 1%positive := mkCommon [1559; 3675] London ]} ∅ ∅ [].

(** Options naming the chain parameters at location 1 and both hardfork
    selectors, and the same with [hardforkByBlockNumber: false]. *)
Definition bothSelectorsOpts : VMOpts.t :=
  VMOpts.mk false false (Some 1%positive) None None None None
            (Some true) (Some 5) None None.

Definition falseSelectorOpts : VMOpts.t :=
  VMOpts.mk false false (Some 1%positive) None None None None
            (Some false) (Some 5) None None.

(** The same two with an environment facade over the objects at
    location 1. *)
Definition bothSelectorsFacadeOpts : VMOpts.t :=
  VMOpts.mk false false (Some 1%positive) None None None None
            (Some true) (Some 5) (Some (mkEEI 1 1 ∅ 1)) None.

Definition falseSelectorFacadeOpts : VMOpts.t :=
  VMOpts.mk false false (Some 1%positive) None None None None
            (Some false) (Some 5) (Some (mkEEI 1 1 ∅ 1)) None.

(** Options with the legacy key ['chain']. *)
Definition legacyOpts : VMOpts.t :=
  VMOpts.mk true false None None None None None None None None None.

(** Options naming chain parameters only. *)
Definition commonOnlyOpts : VMOpts.t :=
  VMOpts.mk false false (Some 1%positive) None None None None
            None None None None.

(** Options supplying the chain parameters, the state store and the block
    store at location 1 and an environment facade over these three; the
    engine [VM.create] makes of them in [sampleWorld]; and the heap it
    leaves, in which [_init()] has been called on the block store. *)
Definition suppliedOpts : VMOpts.t :=
  VMOpts.mk false false (Some 1%positive) (Some 1%positive) (Some 1%positive)
            None None None None (Some (mkEEI 1 1 ∅ 1)) None.

Definition suppliedEngine : VM :=
  mkVM 1 1 1 (mkEVM 1 1 (mkEEI 1 1 ∅ 1)) (mkEEI 1 1 ∅ 1) suppliedOpts
       true false None false.

Definition suppliedEngineWorld : World := blockchain_init 1 sampleWorld.

End VM.

(** * Properties of the secure trie *)

Section SecureTrieFacts.

Variable keccak256 : Buffer -> Buffer.
Variable rootOf : gmap Buffer Buffer -> Buffer.

Local Abbreviation get := (SecureTrie.get keccak256).
Local Abbreviation put := (SecureTrie.put keccak256).
Local Abbreviation del := (SecureTrie.del keccak256).
Local Abbreviation root := (SecureTrie.root rootOf).

(** The guard of [put] holds exactly for [undefined], [null] and the empty
    buffer. *)
Lemma put_guard_spec (val : SecureTrie.JsVal) :
  SecureTrie.isFalsy val || SecureTrie.toString_is_empty val = true <->
  val = SecureTrie.VUndefined \/ val = SecureTrie.VNull \/ val = SecureTrie.VBuffer [].
Proof.
  destruct val as [| |[|x b]]; simpl; split; intros Hv; try done; auto.
  all: destruct Hv as [Hv|[Hv|Hv]]; discriminate Hv.
Qed.

Lemma get_del_same (t : SecureTrie.Trie) (key : Buffer) :
  get (del t key) key = None.
Proof.
  unfold SecureTrie.get, SecureTrie.del, SecureTrie.Trie_get, SecureTrie.Trie_del.
  simpl. apply lookup_delete_eq.
Qed.

Lemma del_unset (t : SecureTrie.Trie) (key : Buffer) :
  get t key = None -> del t key = t.
Proof.
  unfold SecureTrie.get, SecureTrie.del, SecureTrie.Trie_get, SecureTrie.Trie_del.
  destruct t as [m]. simpl. intros Hk. f_equal. by apply delete_id.
Qed.

(** A stored non-empty buffer is read back: [put] deletes only in the
    cases of the guard. *)
Lemma get_put_nonempty (t : SecureTrie.Trie) (key : Buffer) (x : Byte.byte) (b : Buffer) :
  get (put t key (SecureTrie.VBuffer (x :: b))) key = Some (x :: b).
Proof.
  unfold SecureTrie.get, SecureTrie.put, SecureTrie.Trie_get, SecureTrie.Trie_put.
  simpl. apply lookup_insert_eq.
Qed.

(** C1: storing an empty or falsy value ([undefined], [null], the empty
    buffer) in the secure trie is a deletion: [put t key val] is
    [del t key], a [get] of the key afterwards returns [null], and when the
    key was not set the trie, hence its root, is unchanged. *)
Theorem put_empty_is_del (t : SecureTrie.Trie) (key : Buffer) (val : SecureTrie.JsVal) :
  val = SecureTrie.VUndefined \/ val = SecureTrie.VNull \/ val = SecureTrie.VBuffer [] ->
  put t key val = del t key /\
  get (put t key val) key = None /\
  (get t key = None -> root (put t key val) = root t).
Proof.
  intros Hval. apply put_guard_spec in Hval.
  assert (Hput : put t key val = del t key).
  { unfold SecureTrie.put. by rewrite Hval. }
  rewrite Hput. split; [done|]. split.
  - apply get_del_same.
  - intros Hunset. by rewrite del_unset.
Qed.

End SecureTrieFacts.

(** * Properties of the engine shell *)

Import VM.

Section EngineFacts.

Context `{Collaborators}.

(** ** Sequencing *)

Lemma bind_throws {A B} (m : M A) (k : A -> M B) (w : World) (e : VMError) :
  m w = inl e -> (m ≫= k) w = inl e.
Proof. unfold mbind, M_bind. by intros ->. Qed.

Lemma bind_returns {A B} (m : M A) (k : A -> M B) (w w' : World) (a : A) :
  m w = inr (a, w') -> (m ≫= k) w = k a w'.
Proof. unfold mbind, M_bind. by intros ->. Qed.

(** ** Initialization *)

Lemma init_sets_flag (vm : VM) (w : World) : _isInitialized (init vm w).1 = true.
Proof. unfold init. by destruct (_isInitialized vm) eqn:E. Qed.

Lemma init_when_initialized (vm : VM) (w : World) :
  _isInitialized vm = true -> init vm w = (vm, w).
Proof. unfold init. by intros ->. Qed.

(** C2: initialization is idempotent. On the engine left by a first
    [init()], a further [init()] in any later heap returns with the engine
    and the heap (state stores, block stores, chain parameters and the trace
    of collaborator calls) exactly as it found them; so [init(); init()]
    leaves what a single [init()] leaves. *)
Theorem init_idempotent (vm : VM) (w : World) :
  (forall w' : World, init (init vm w).1 w' = ((init vm w).1, w')) /\
  init (init vm w).1 (init vm w).2 = init vm w.
Proof.
  assert (Hagain : forall w', init (init vm w).1 w' = ((init vm w).1, w')).
  { intros w'. apply init_when_initialized, init_sets_flag. }
  split; [exact Hagain|].
  rewrite Hagain. by destruct (init vm w).
Qed.

(** C3: with an external state store among the options, [init()] skips both
    optional steps whatever [activateGenesisState] and [activatePrecompiles]
    say: the genesis step and the priming step leave every heap as it is,
    and a whole [init()] changes no state store and calls nothing but
    [blockchain._init()]. *)
Theorem init_external_state_store (vm : VM) (w : World) (sm : loc) :
  VMOpts.stateManager (_opts vm) = Some sm ->
  (forall w' : World, init_genesis vm w' = w') /\
  (forall w' : World, init_precompiles vm w' = w') /\
  states (init vm w).2 = states w /\
  trace (init vm w).2 =
    trace w ++ (if _isInitialized vm then [] else [Call_blockchain_init (blockchain vm)]).
Proof.
  intros Hsm.
  assert (Hg : forall w', init_genesis vm w' = w').
  { intros w'. unfold init_genesis. by rewrite Hsm. }
  assert (Hp : forall w', init_precompiles vm w' = w').
  { intros w'. unfold init_precompiles. rewrite Hsm. simpl.
    by rewrite andb_false_r. }
  split; [exact Hg|]. split; [exact Hp|].
  unfold init. destruct (_isInitialized vm); simpl.
  - split; [done|]. by rewrite app_nil_r.
  - rewrite Hp, Hg. done.
Qed.

(** ** Construction *)

(** C8: the constructor rejects the legacy option keys. Whenever the
    options record has a ['chain'] or a ['hardfork'] key, construction throws
    the legacy-option error, whatever the other options and the heap are (the
    check comes before any other option is read), and neither [new VM] nor
    [VM.create] produces an engine. *)
Theorem constructor_rejects_legacy_keys (opts : VMOpts.t) (w : World) :
  VMOpts.has_chain opts = true \/ VMOpts.has_hardfork opts = true ->
  constructor opts w = inl LegacyOptionRejected /\
  create opts w = inl LegacyOptionRejected.
Proof.
  intros Hkey.
  assert (Hrej : rejectLegacy opts w = inl LegacyOptionRejected).
  { unfold rejectLegacy. destruct Hkey as [-> | ->]; [done|].
    by rewrite orb_true_r. }
  assert (Hc : constructor opts w = inl LegacyOptionRejected).
  { unfold constructor. by apply bind_throws. }
  split; [exact Hc|]. unfold create. by apply bind_throws.
Qed.

(** The constructor stops at the first of the earlier checks that throws. *)
Lemma constructor_earlier_error (opts : VMOpts.t) (w : World) (e : VMError) :
  earlierChecks opts w = inl e -> constructor opts w = inl e.
Proof.
  unfold earlierChecks, resolveCommon, constructor, mbind, M_bind.
  destruct (rejectLegacy opts w) as [e1|[[] w1]]; [by intros [= ->]|].
  destruct (setupCommon opts w1) as [e2|[c w2]]; [by intros [= ->]|].
  destruct (checkHardfork c w2) as [e3|[[] w3]]; [by intros [= ->]|].
  discriminate.
Qed.

(** Past the earlier checks, the outcome is decided by the facade, then by
    the selector check, then by [toType]. *)
Lemma constructor_after_earlier (opts : VMOpts.t) (w w1 : World) (c : loc) :
  earlierChecks opts w = inr (c, w1) ->
  (VMOpts.eei opts = None ->
   constructor opts w = inl (ReferenceError "TransientStorage")) /\
  (is_Some (VMOpts.eei opts) ->
   defined (VMOpts.hardforkByBlockNumber opts)
   && defined (VMOpts.hardforkByTD opts) = true ->
   constructor opts w = inl ConflictingHardforkSelectors) /\
  (is_Some (VMOpts.eei opts) ->
   defined (VMOpts.hardforkByBlockNumber opts)
   && defined (VMOpts.hardforkByTD opts) = false ->
   forall td,
     VMOpts.hardforkByTD opts = Some td -> toType_BigInt td = None ->
     constructor opts w = inl (ToTypeError td)) /\
  (is_Some (VMOpts.eei opts) ->
   defined (VMOpts.hardforkByBlockNumber opts)
   && defined (VMOpts.hardforkByTD opts) = false ->
   (forall td, VMOpts.hardforkByTD opts = Some td -> is_Some (toType_BigInt td)) ->
   exists vm w', constructor opts w = inr (vm, w') /\ _common vm = c).
Proof.
  unfold earlierChecks, resolveCommon, constructor, mbind, M_bind.
  destruct (rejectLegacy opts w) as [e1|[[] w2]]; [done|].
  destruct (setupCommon opts w2) as [e2|[c' w3]]; [done|].
  destruct (checkHardfork c' w3) as [e3|[[] w4]] eqn:Hhf; [done|].
  unfold mret at 1, M_ret at 1. intros [= -> ->].
  unfold setupEEI, checkSelectors, convertTD.
  split; [|split; [|split]].
  - intros ->.
    by destruct (VMOpts.stateManager opts), (VMOpts.blockchain opts).
  - intros [e ->] Hsel.
    destruct (VMOpts.stateManager opts), (VMOpts.blockchain opts);
      unfold mret, M_ret, alloc_state, alloc_chain; simpl; by rewrite Hsel.
  - intros [e ->] Hsel td Htd Hthrows.
    destruct (VMOpts.stateManager opts), (VMOpts.blockchain opts);
      unfold mret, M_ret, alloc_state, alloc_chain; simpl;
      by rewrite Hsel, Htd, Hthrows.
  - intros [e ->] Hsel Hconv.
    destruct (VMOpts.stateManager opts), (VMOpts.blockchain opts);
      unfold mret, M_ret, alloc_state, alloc_chain; simpl;
      rewrite Hsel;
      (destruct (VMOpts.hardforkByTD opts) as [td|] eqn:Htd;
       [destruct (Hconv td eq_refl) as [v ->]|]); eauto.
Qed.

(** Past the earlier checks the constructor returns an engine on the
    resolved chain parameters, or throws one of the three later errors. *)
Lemma constructor_late_outcome (opts : VMOpts.t) (w w1 : World) (c : loc) :
  earlierChecks opts w = inr (c, w1) ->
  (exists vm w', constructor opts w = inr (vm, w') /\ _common vm = c) \/
  constructor opts w = inl (ReferenceError "TransientStorage") \/
  constructor opts w = inl ConflictingHardforkSelectors \/
  exists td, constructor opts w = inl (ToTypeError td).
Proof.
  intros Hearly.
  destruct (constructor_after_earlier _ _ _ _ Hearly)
    as (Hnone & Hconflict & Hthrows & Hok).
  destruct (VMOpts.eei opts) as [e|] eqn:Heei; [|right; left; by apply Hnone].
  assert (Hsome : is_Some (Some e)) by eauto.
  destruct (defined (VMOpts.hardforkByBlockNumber opts)
            && defined (VMOpts.hardforkByTD opts)) eqn:Hsel.
  { right. right. left. by apply Hconflict. }
  destruct (VMOpts.hardforkByTD opts) as [td|] eqn:Htd.
  - destruct (toType_BigInt td) as [v|] eqn:Hv.
    + left. apply Hok; [done|done|]. intros ? [= <-]. eauto.
    + right. right. right. exists td. by apply (Hthrows Hsome eq_refl td).
  - left. apply Hok; [done|done|]. intros ? [=].
Qed.

(** With both selectors defined the constructor never returns; which error
    it throws is decided by the earlier checks and, past them, by the
    facade. *)
Lemma constructor_selectors (opts : VMOpts.t) (w : World) (b : bool) (td : Z) :
  VMOpts.hardforkByBlockNumber opts = Some b ->
  VMOpts.hardforkByTD opts = Some td ->
  (exists e, constructor opts w = inl e /\ create opts w = inl e) /\
  (forall e, earlierChecks opts w = inl e -> constructor opts w = inl e) /\
  (forall c w1 facade,
     earlierChecks opts w = inr (c, w1) ->
     VMOpts.eei opts = Some facade ->
     constructor opts w = inl ConflictingHardforkSelectors).
Proof.
  intros Hbn Htd.
  assert (Hlate : forall c w1 facade,
            earlierChecks opts w = inr (c, w1) ->
            VMOpts.eei opts = Some facade ->
            constructor opts w = inl ConflictingHardforkSelectors).
  { intros c w1 facade Hearly Heei.
    apply (constructor_after_earlier _ _ _ _ Hearly).
    - by rewrite Heei.
    - by rewrite Hbn, Htd. }
  split; [|split; [apply constructor_earlier_error|exact Hlate]].
  assert (Hfails : exists e, constructor opts w = inl e).
  { destruct (earlierChecks opts w) as [e|[c w1]] eqn:Hearly.
    - exists e. by apply constructor_earlier_error.
    - destruct (VMOpts.eei opts) as [facade|] eqn:Heei.
      + exists ConflictingHardforkSelectors. by apply (Hlate c w1 facade).
      + exists (ReferenceError "TransientStorage").
        by apply (constructor_after_earlier _ _ _ _ Hearly). }
  destruct Hfails as [e He]. exists e.
  split; [done|]. unfold create. by apply bind_throws.
Qed.

(** C4, as amended: when both [hardforkByBlockNumber] and [hardforkByTD]
    are supplied, construction always fails and no engine is produced; when
    an earlier check of the constructor (legacy keys, amendments, rule-set
    tag) fails, the error is that of the first one that fails; and when the
    earlier checks pass and the options supply an environment facade, the
    error is the conflicting-selectors one. *)
Theorem constructor_conflicting_selectors (opts : VMOpts.t) (w : World)
    (b : bool) (td : Z) :
  VMOpts.hardforkByBlockNumber opts = Some b ->
  VMOpts.hardforkByTD opts = Some td ->
  (exists e, constructor opts w = inl e /\ create opts w = inl e) /\
  (forall e, earlierChecks opts w = inl e -> constructor opts w = inl e) /\
  (forall c w1 facade,
     earlierChecks opts w = inr (c, w1) ->
     VMOpts.eei opts = Some facade ->
     constructor opts w = inl ConflictingHardforkSelectors).
Proof. apply constructor_selectors. Qed.

(** C10, as amended: the selector check looks at the presence of the two
    options, not at their truth value. With [hardforkByBlockNumber]
    explicitly [false], the documented default, and [hardforkByTD]
    supplied, the selector check throws and construction fails: with the
    error of the first earlier check of the constructor that fails if one
    does, and with the conflicting-selectors error when the earlier checks
    pass and the options supply an environment facade. *)
Theorem constructor_selector_false_conflicts (opts : VMOpts.t) (w : World) (td : Z) :
  VMOpts.hardforkByBlockNumber opts = Some false ->
  VMOpts.hardforkByTD opts = Some td ->
  checkSelectors opts w = inl ConflictingHardforkSelectors /\
  (exists e, constructor opts w = inl e) /\
  (forall e, earlierChecks opts w = inl e -> constructor opts w = inl e) /\
  (forall c w1 facade,
     earlierChecks opts w = inr (c, w1) ->
     VMOpts.eei opts = Some facade ->
     constructor opts w = inl ConflictingHardforkSelectors).
Proof.
  intros Hbn Htd.
  destruct (constructor_selectors opts w false td Hbn Htd)
    as [[e [He _]] [Hearly Hlate]].
  split.
  { unfold checkSelectors. by rewrite Hbn, Htd. }
  split; [by exists e|]. split; [exact Hearly|exact Hlate].
Qed.

Lemma includes_spec `{EqDecision A} (l : list A) (x : A) :
  includes l x = true <-> x ∈ l.
Proof. unfold includes. apply bool_decide_eq_true. Qed.

Lemma checkHardfork_spec (c : loc) (w : World) :
  checkHardfork c w =
    if decide (hardfork (common_at w c) ∈ supportedHardforks)
    then inr (tt, w)
    else inl (UnsupportedRuleSet (hardfork (common_at w c))).
Proof.
  unfold checkHardfork, includes.
  destruct (decide (hardfork (common_at w c) ∈ supportedHardforks)) as [Hin|Hout].
  - by rewrite bool_decide_eq_true_2.
  - by rewrite bool_decide_eq_false_2.
Qed.

(** The rule-set check once [this._common] is set. *)
Lemma rule_set_check_resolved (opts : VMOpts.t) (w w1 : World) (c : loc) :
  resolveCommon opts w = inr (c, w1) ->
  (hardfork (common_at w1 c) ∉ supportedHardforks ->
   constructor opts w = inl (UnsupportedRuleSet (hardfork (common_at w1 c))) /\
   create opts w = inl (UnsupportedRuleSet (hardfork (common_at w1 c)))) /\
  (hardfork (common_at w1 c) ∈ supportedHardforks ->
   checkHardfork c w1 = inr (tt, w1) /\
   forall hf, constructor opts w <> inl (UnsupportedRuleSet hf)).
Proof.
  intros Hres. split; intros Hhf.
  - assert (Hearly : earlierChecks opts w
                     = inl (UnsupportedRuleSet (hardfork (common_at w1 c)))).
    { unfold earlierChecks. rewrite (bind_returns _ _ _ _ _ Hres).
      apply bind_throws. rewrite checkHardfork_spec. by rewrite decide_False. }
    apply constructor_earlier_error in Hearly.
    split; [done|]. unfold create. by apply bind_throws.
  - assert (Hchk : checkHardfork c w1 = inr (tt, w1)).
    { rewrite checkHardfork_spec. by rewrite decide_True. }
    split; [done|]. intros hf.
    assert (Hearly : earlierChecks opts w = inr (c, w1)).
    { unfold earlierChecks. rewrite (bind_returns _ _ _ _ _ Hres).
      by rewrite (bind_returns _ _ _ _ _ Hchk). }
    destruct (constructor_late_outcome _ _ _ _ Hearly)
      as [(vm & w' & -> & _)|[->|[->|[td ->]]]]; done.
Qed.

(** The errors thrown before [this._common] is set are the legacy-option
    error and the unsupported-amendment error. *)
Lemma resolveCommon_error (opts : VMOpts.t) (w : World) (e : VMError) :
  resolveCommon opts w = inl e ->
  constructor opts w = inl e /\
  (e = LegacyOptionRejected \/ exists eip, e = UnsupportedAmendment eip).
Proof.
  intros Hres. split.
  - apply constructor_earlier_error. unfold earlierChecks. by apply bind_throws.
  - revert Hres. unfold resolveCommon, mbind, M_bind, rejectLegacy.
    destruct (_ || _); [intros [= <-]; by left|]. simpl.
    unfold setupCommon. destruct (VMOpts.common opts) as [c|]; [|done].
    destruct (List.find _ _) as [eip|]; [|done].
    intros [= <-]. right. by exists eip.
Qed.

(** C5: the rule-set check of the constructor. With [c] the chain
    parameters the constructor has resolved as [this._common]: if their
    rule-set tag is outside [supportedHardforks], construction fails with
    the unsupported-rule-set error for that tag; if the tag is in the list,
    the check passes; and construction fails with an unsupported-rule-set
    error in no other case. *)
Theorem constructor_rule_set_check (opts : VMOpts.t) (w : World) :
  (forall c w1,
     resolveCommon opts w = inr (c, w1) ->
     hardfork (common_at w1 c) ∉ supportedHardforks ->
     constructor opts w = inl (UnsupportedRuleSet (hardfork (common_at w1 c))) /\
     create opts w = inl (UnsupportedRuleSet (hardfork (common_at w1 c)))) /\
  (forall c w1,
     resolveCommon opts w = inr (c, w1) ->
     hardfork (common_at w1 c) ∈ supportedHardforks ->
     checkHardfork c w1 = inr (tt, w1)) /\
  (forall hf,
     constructor opts w = inl (UnsupportedRuleSet hf) ->
     exists c w1,
       resolveCommon opts w = inr (c, w1) /\
       hardfork (common_at w1 c) = hf /\
       hf ∉ supportedHardforks).
Proof.
  split; [|split].
  - intros c w1 Hres. apply (rule_set_check_resolved _ _ _ _ Hres).
  - intros c w1 Hres Hin. by apply (rule_set_check_resolved _ _ _ _ Hres).
  - intros hf Hthrown.
    destruct (resolveCommon opts w) as [e|[c w1]] eqn:Hres.
    + destruct (resolveCommon_error _ _ _ Hres) as [He [->|[eip ->]]];
        rewrite He in Hthrown; discriminate Hthrown.
    + exists c, w1. split; [done|].
      destruct (rule_set_check_resolved _ _ _ _ Hres) as [Hout Hin].
      destruct (decide (hardfork (common_at w1 c) ∈ supportedHardforks))
        as [Hsup|Hnot].
      * by destruct (proj2 (Hin Hsup) hf).
      * destruct (Hout Hnot) as [Hc _]. rewrite Hc in Hthrown.
        injection Hthrown as <-. done.
Qed.

(** ** Precompile priming *)

(** What the loop body makes of the account it visits. *)
Definition primed (a : Account) : Account :=
  if isEmpty a
  then fromAccountData None (Some 1) (Some (stateRoot a)) None
  else a.

Lemma primed_not_empty (a : Account) : isEmpty (primed a) = false.
Proof. unfold primed. by destruct (isEmpty a) eqn:E. Qed.

Lemma primed_idempotent (a : Account) : primed (primed a) = primed a.
Proof. unfold primed at 1. by rewrite primed_not_empty. Qed.

Lemma state_at_alter (f : StateStore -> StateStore) (st : loc) (w : World) :
  is_Some (states w !! st) ->
  state_at (set_states (alter f st) w) st = f (state_at w st).
Proof.
  intros [s Hs]. unfold state_at. simpl.
  rewrite lookup_total_alter_eq, Hs. simpl.
  by rewrite (lookup_total_correct _ _ _ Hs).
Qed.

Lemma state_at_log (c : Call) (w : World) (st : loc) :
  state_at (log c w) st = state_at w st.
Proof. done. Qed.

Lemma allocated_alter (f : StateStore -> StateStore) (st l : loc) (w : World) :
  is_Some (states w !! l) -> is_Some (states (set_states (alter f st) w) !! l).
Proof. intros Hl. simpl. by apply lookup_alter_is_Some. Qed.

(** One visit of the loop: the visited account becomes [primed], every
    other account and the journal stay, and the calls are account calls. *)
Lemma prime_precompile_spec (st : loc) (w : World) (k : string) :
  is_Some (states w !! st) ->
  is_Some (states (prime_precompile st w k) !! st) /\
  commons (prime_precompile st w k) = commons w /\
  journal (state_at (prime_precompile st w k) st) = journal (state_at w st) /\
  (forall a, account_at (prime_precompile st w k) st a =
             if decide (a = Address_fromHex k)
             then primed (account_at w st a) else account_at w st a) /\
  exists calls, trace (prime_precompile st w k) = trace w ++ calls /\
                Forall (is_account_call st) calls.
Proof.
  intros Hst. unfold prime_precompile, getAccount.
  destruct (isEmpty (Store_getAccount (state_at w st) (Address_fromHex k))) eqn:E.
  - unfold putAccount.
    split; [by apply allocated_alter|]. split; [done|].
    unfold account_at. rewrite state_at_log, state_at_alter by done.
    rewrite state_at_log. split; [done|]. split.
    + intros a. unfold Store_getAccount at 1. simpl.
      destruct (decide (a = Address_fromHex k)) as [->|Hne].
      * rewrite lookup_insert_eq. simpl. unfold primed. by rewrite E.
      * by rewrite lookup_insert_ne.
    + eexists [_; _]. simpl. rewrite <- app_assoc. split; [done|].
      repeat constructor.
  - split; [done|]. split; [done|]. split; [done|]. split.
    + intros a. unfold account_at. rewrite state_at_log.
      destruct (decide (a = Address_fromHex k)) as [->|Hne]; [|done].
      unfold primed. by rewrite E.
    + eexists [_]. split; [done|]. repeat constructor.
Qed.

(** The whole loop. *)
Lemma prime_all_spec (st : loc) (ks : list string) (w : World) :
  is_Some (states w !! st) ->
  is_Some (states (foldl (prime_precompile st) w ks) !! st) /\
  commons (foldl (prime_precompile st) w ks) = commons w /\
  journal (state_at (foldl (prime_precompile st) w ks) st) = journal (state_at w st) /\
  (forall a, account_at (foldl (prime_precompile st) w ks) st a =
             if decide (a ∈ Address_fromHex <$> ks)
             then primed (account_at w st a) else account_at w st a) /\
  exists calls, trace (foldl (prime_precompile st) w ks) = trace w ++ calls /\
                Forall (is_account_call st) calls.
Proof.
  revert w. induction ks as [|k ks IH]; intros w Hst.
  - cbn [foldl]. split; [done|]. split; [done|]. split; [done|]. split.
    + intros a. destruct (decide _) as [Hin|]; [|done].
      by apply elem_of_nil in Hin.
    + exists []. by rewrite app_nil_r.
  - cbn [foldl].
    destruct (prime_precompile_spec st w k Hst)
      as (Hst1 & Hc1 & Hj1 & Ha1 & calls1 & Ht1 & Hf1).
    destruct (IH _ Hst1) as (Hst2 & Hc2 & Hj2 & Ha2 & calls2 & Ht2 & Hf2).
    split; [done|]. split; [congruence|]. split; [congruence|]. split.
    + intros a. rewrite Ha2, Ha1, fmap_cons.
      destruct (decide (a = Address_fromHex k)) as [->|Hne].
      * rewrite (decide_True (P := _ ∈ _ :: _)) by (apply elem_of_cons; auto).
        destruct (decide (_ ∈ _)); [apply primed_idempotent | done].
      * destruct (decide (a ∈ Address_fromHex <$> ks)) as [Hin|Hout].
        -- rewrite decide_True; [done|]. apply elem_of_cons; auto.
        -- rewrite decide_False; [done|].
           intros [?|?]%elem_of_cons; done.
    + exists (calls1 ++ calls2). rewrite Ht2, Ht1, app_assoc.
      split; [done|]. by apply Forall_app.
Qed.

Lemma init_genesis_allocated (vm : VM) (w : World) (l : loc) :
  is_Some (states w !! l) -> is_Some (states (init_genesis vm w) !! l).
Proof.
  intros Hl. unfold init_genesis.
  destruct (negb _); [|done]. destruct (truthy_bool _); [|done].
  unfold generateCanonicalGenesis. simpl. by apply lookup_alter_is_Some.
Qed.

(** C9: precompile priming touches empty precompile accounts only. When
    [init()] runs on an engine not yet initialized, with
    [activatePrecompiles] set and no external state store, then, comparing
    the store of the environment facade when priming starts (after the
    genesis step) and when [init()] returns: a precompile account that was
    not empty is unchanged; one that was empty has balance 1 and the storage
    root it had; every other account is unchanged; the journal is as deep as
    before; and the calls made are one [checkpoint()], then reads and writes
    of accounts only, then one [commit()]. The store of the environment
    facade is assumed to be an object of the heap. *)
Theorem init_precompile_priming (vm : VM) (w : World) :
  _isInitialized vm = false ->
  VMOpts.activatePrecompiles (_opts vm) = Some true ->
  VMOpts.stateManager (_opts vm) = None ->
  is_Some (states w !! state (eei vm)) ->
  let st := state (eei vm) in
  let w0 := init_genesis vm (blockchain_init (blockchain vm) w) in
  let w1 := (init vm w).2 in
  (forall addressStr,
     addressStr ∈ getActivePrecompiles (common_at w0 (_common vm)) ->
     (isEmpty (account_at w0 st (Address_fromHex addressStr)) = false ->
      account_at w1 st (Address_fromHex addressStr)
      = account_at w0 st (Address_fromHex addressStr)) /\
     (isEmpty (account_at w0 st (Address_fromHex addressStr)) = true ->
      balance (account_at w1 st (Address_fromHex addressStr)) = 1 /\
      stateRoot (account_at w1 st (Address_fromHex addressStr))
      = stateRoot (account_at w0 st (Address_fromHex addressStr)))) /\
  (forall a,
     a ∉ Address_fromHex <$> getActivePrecompiles (common_at w0 (_common vm)) ->
     account_at w1 st a = account_at w0 st a) /\
  journal (state_at w1 st) = journal (state_at w0 st) /\
  exists calls,
    trace w1 = trace w0 ++ [Call_checkpoint st] ++ calls ++ [Call_commit st] /\
    Forall (is_account_call st) calls.
Proof.
  intros Hinit Hact Hsm Hst st w0 w1.
  assert (Hst0 : is_Some (states w0 !! st)).
  { by apply init_genesis_allocated. }
  assert (Hw1 : w1 = commit st (foldl (prime_precompile st) (checkpoint st w0)
                           (getActivePrecompiles (common_at w0 (_common vm))))).
  { unfold w1, init. rewrite Hinit. cbn [snd]. unfold init_precompiles.
    by rewrite Hact, Hsm. }
  assert (Hstc : is_Some (states (checkpoint st w0) !! st)).
  { by apply allocated_alter. }
  destruct (prime_all_spec st (getActivePrecompiles (common_at w0 (_common vm)))
              _ Hstc) as (Hst2 & _ & Hj & Ha & calls & Ht & Hf).
  assert (Hacct : forall a, account_at w1 st a =
            if decide (a ∈ Address_fromHex <$>
                           getActivePrecompiles (common_at w0 (_common vm)))
            then primed (account_at w0 st a) else account_at w0 st a).
  { intros a.
    assert (Hchk : account_at (checkpoint st w0) st a = account_at w0 st a).
    { unfold account_at, checkpoint.
      by rewrite state_at_log, state_at_alter by done. }
    rewrite <- Hchk, <- (Ha a), Hw1. unfold account_at, commit.
    by rewrite state_at_log, state_at_alter by done. }
  split; [|split; [|split]].
  - intros k Hk. rewrite Hacct.
    rewrite decide_True by (by apply list_elem_of_fmap_2).
    unfold primed. split; intros ->; done.
  - intros a Ha'. rewrite Hacct. by rewrite decide_False.
  - rewrite Hw1. unfold commit. rewrite state_at_log, state_at_alter by done.
    simpl. rewrite Hj. unfold checkpoint.
    rewrite state_at_log, state_at_alter by done. done.
  - exists calls. split; [|done]. rewrite Hw1. unfold commit. simpl.
    rewrite Ht. unfold checkpoint. simpl. by rewrite <- !app_assoc.
Qed.

(** ** The loop over the amendments *)

Lemma find_unsupported_none (l : list Z) :
  Forall (fun eip => eip ∈ supportedEIPs) l ->
  List.find (fun eip => negb (includes supportedEIPs eip)) l = None.
Proof.
  induction 1 as [|eip l Hin _ IH]; [done|].
  simpl. apply includes_spec in Hin. by rewrite Hin.
Qed.

Lemma find_unsupported_some (l : list Z) (eip : Z) :
  List.find (fun eip => negb (includes supportedEIPs eip)) l = Some eip ->
  eip ∈ l /\ eip ∉ supportedEIPs.
Proof.
  intros Hfind. apply List.find_some in Hfind as [Hin Hneg].
  split; [by apply list_elem_of_In|].
  intros Hsup. apply includes_spec in Hsup. by rewrite Hsup in Hneg.
Qed.

Lemma find_unsupported_none_inv (l : list Z) :
  List.find (fun eip => negb (includes supportedEIPs eip)) l = None ->
  Forall (fun eip => eip ∈ supportedEIPs) l.
Proof.
  intros Hfind. apply Forall_forall. intros eip Hin.
  apply list_elem_of_In in Hin.
  pose proof (List.find_none _ _ Hfind eip Hin) as Hneg. simpl in Hneg.
  apply includes_spec. by destruct (includes supportedEIPs eip).
Qed.

(** ** The heap across the priming loop *)

Lemma prime_all_frame (st : loc) (ks : list string) (w : World) :
  commons (foldl (prime_precompile st) w ks) = commons w /\
  chains (foldl (prime_precompile st) w ks) = chains w /\
  forall l, is_Some (states w !! l) ->
            is_Some (states (foldl (prime_precompile st) w ks) !! l).
Proof.
  revert w. induction ks as [|k ks IH]; intros w; [done|].
  cbn [foldl]. destruct (IH (prime_precompile st w k)) as (Hc & Hb & Hs).
  rewrite Hc, Hb. unfold prime_precompile, getAccount in *.
  destruct (isEmpty _); [|done].
  split; [done|]. split; [done|]. intros l Hl. apply Hs.
  simpl. by apply lookup_alter_is_Some.
Qed.

End EngineFacts.

(** * Concrete runs *)

(** ** The secure trie *)

(** The key set in [sampleTrie] reads back, and reads [null] once the empty
    buffer is stored at it. *)
Example sampleTrie_get :
  SecureTrie.get SecureTrie.sampleHash SecureTrie.sampleTrie [Byte.x01; Byte.x02]
  = Some [Byte.x2a] /\
  SecureTrie.get SecureTrie.sampleHash
    (SecureTrie.put SecureTrie.sampleHash SecureTrie.sampleTrie
       [Byte.x01; Byte.x02] (SecureTrie.VBuffer []))
    [Byte.x01; Byte.x02]
  = None.
Proof. split; reflexivity. Qed.

(** Storing the empty buffer at a key of [sampleTrie] that is not set. *)
Lemma put_empty_is_del_witness :
  (SecureTrie.VBuffer [] = SecureTrie.VUndefined \/
   SecureTrie.VBuffer [] = SecureTrie.VNull \/
   SecureTrie.VBuffer [] = SecureTrie.VBuffer []) /\
  SecureTrie.get SecureTrie.sampleHash SecureTrie.sampleTrie [Byte.x07] = None /\
  SecureTrie.put SecureTrie.sampleHash SecureTrie.sampleTrie [Byte.x07]
    (SecureTrie.VBuffer [])
  = SecureTrie.del SecureTrie.sampleHash SecureTrie.sampleTrie [Byte.x07] /\
  SecureTrie.root SecureTrie.sampleRootOf
    (SecureTrie.put SecureTrie.sampleHash SecureTrie.sampleTrie [Byte.x07]
       (SecureTrie.VBuffer []))
  = SecureTrie.root SecureTrie.sampleRootOf SecureTrie.sampleTrie.
Proof.
  assert (Hval : SecureTrie.VBuffer [] = SecureTrie.VUndefined \/
                 SecureTrie.VBuffer [] = SecureTrie.VNull \/
                 SecureTrie.VBuffer [] = SecureTrie.VBuffer []).
  { right. right. reflexivity. }
  assert (Hunset : SecureTrie.get SecureTrie.sampleHash SecureTrie.sampleTrie
                     [Byte.x07] = None).
  { reflexivity. }
  destruct (put_empty_is_del SecureTrie.sampleHash SecureTrie.sampleRootOf
              SecureTrie.sampleTrie [Byte.x07] (SecureTrie.VBuffer []) Hval)
    as (Hdel & _ & Hroot).
  split; [exact Hval|]. split; [exact Hunset|]. split; [exact Hdel|].
  exact (Hroot Hunset).
Defined.

(** ** Construction *)

(** The constructor on [sampleOpts], which supply no environment facade,
    and on options that supply one. *)
Example sample_constructor :
  constructor sampleOpts emptyWorld = inl (ReferenceError "TransientStorage") /\
  constructor suppliedOpts sampleWorld
  = inr (set_isInitialized false suppliedEngine, sampleWorld).
Proof. split; reflexivity. Qed.

(** A negative [hardforkByTD], with chain parameters at london and an
    environment facade: [toType] throws. *)
Example negative_total_difficulty :
  constructor (VMOpts.mk false false (Some 1%positive) None None None None
                         None (Some (-1)) (Some (mkEEI 1 1 ∅ 1)) None)
              sampleWorld
  = inl (ToTypeError (-1)).
Proof. reflexivity. Qed.

(** Options with the legacy key ['chain']. *)
Lemma constructor_rejects_legacy_keys_witness :
  (VMOpts.has_chain legacyOpts = true \/ VMOpts.has_hardfork legacyOpts = true) /\
  constructor legacyOpts emptyWorld = inl LegacyOptionRejected /\
  create legacyOpts emptyWorld = inl LegacyOptionRejected.
Proof.
  split; [left; reflexivity|].
  apply (constructor_rejects_legacy_keys legacyOpts emptyWorld).
  left. reflexivity.
Defined.

(** Chain parameters at london pass the rule-set check. *)
Example london_is_supported :
  resolveCommon commonOnlyOpts sampleWorld = inr (1%positive, sampleWorld) /\
  checkHardfork 1%positive sampleWorld = inr (tt, sampleWorld) /\
  constructor commonOnlyOpts sampleWorld
  <> inl (UnsupportedRuleSet (OtherHardfork "shanghai")).
Proof.
  assert (Hres : resolveCommon commonOnlyOpts sampleWorld
                 = inr (1%positive, sampleWorld)).
  { reflexivity. }
  destruct (rule_set_check_resolved commonOnlyOpts sampleWorld sampleWorld
              1%positive Hres) as [_ Hin].
  assert (Hlondon : hardfork (common_at sampleWorld 1%positive) ∈ supportedHardforks).
  { apply includes_spec. reflexivity. }
  destruct (Hin Hlondon) as [Hchk Hno].
  split; [exact Hres|]. split; [exact Hchk|]. apply Hno.
Qed.

(** Chain parameters at shanghai: the tag is resolved, it is outside the
    supported ones, and construction fails with the unsupported-rule-set
    error for it. *)
Lemma constructor_rule_set_check_witness :
  resolveCommon commonOnlyOpts shanghaiWorld = inr (1%positive, shanghaiWorld) /\
  (hardfork (common_at shanghaiWorld 1%positive) ∉ supportedHardforks) /\
  constructor commonOnlyOpts shanghaiWorld
  = inl (UnsupportedRuleSet (OtherHardfork "shanghai")).
Proof.
  assert (Hres : resolveCommon commonOnlyOpts shanghaiWorld
                 = inr (1%positive, shanghaiWorld)).
  { reflexivity. }
  assert (Hout : hardfork (common_at shanghaiWorld 1%positive) ∉ supportedHardforks).
  { intros Hin. apply includes_spec in Hin. vm_compute in Hin. discriminate Hin. }
  destruct (constructor_rule_set_check commonOnlyOpts shanghaiWorld)
    as (Hfails & _ & _).
  split; [exact Hres|]. split; [exact Hout|].
  exact (proj1 (Hfails _ _ Hres Hout)).
Defined.

(** Both selectors and chain parameters at shanghai: the two selectors are
    supplied and construction throws the unsupported-rule-set error, not
    the conflicting-selectors one. *)
Lemma conflicting_selectors_counterexample :
  VMOpts.hardforkByBlockNumber bothSelectorsOpts = Some true /\
  VMOpts.hardforkByTD bothSelectorsOpts = Some 5 /\
  constructor bothSelectorsOpts shanghaiWorld
  = inl (UnsupportedRuleSet (OtherHardfork "shanghai")) /\
  constructor bothSelectorsOpts shanghaiWorld <> inl ConflictingHardforkSelectors.
Proof.
  assert (Hrun : constructor bothSelectorsOpts shanghaiWorld
                 = inl (UnsupportedRuleSet (OtherHardfork "shanghai"))).
  { reflexivity. }
  split; [reflexivity|]. split; [reflexivity|]. split; [exact Hrun|].
  rewrite Hrun. discriminate.
Qed.

(** Both selectors, chain parameters at london and an environment
    facade. *)
Lemma constructor_conflicting_selectors_witness :
  (VMOpts.hardforkByBlockNumber bothSelectorsFacadeOpts = Some true /\
   VMOpts.hardforkByTD bothSelectorsFacadeOpts = Some 5 /\
   earlierChecks bothSelectorsFacadeOpts sampleWorld
   = inr (1%positive, sampleWorld) /\
   VMOpts.eei bothSelectorsFacadeOpts = Some (mkEEI 1 1 ∅ 1)) /\
  constructor bothSelectorsFacadeOpts sampleWorld
  = inl ConflictingHardforkSelectors.
Proof.
  assert (Hearly : earlierChecks bothSelectorsFacadeOpts sampleWorld
                   = inr (1%positive, sampleWorld)).
  { reflexivity. }
  destruct (constructor_conflicting_selectors bothSelectorsFacadeOpts sampleWorld
              true 5 eq_refl eq_refl) as (_ & _ & Hlate).
  split; [split; [reflexivity|split; [reflexivity|split; [exact Hearly|reflexivity]]]|].
  exact (Hlate _ _ _ Hearly eq_refl).
Defined.

(** [hardforkByBlockNumber: false], [hardforkByTD] supplied and chain
    parameters listing amendment 3675: construction throws the
    unsupported-amendment error, not the conflicting-selectors one. *)
Lemma selector_false_counterexample :
  VMOpts.hardforkByBlockNumber falseSelectorOpts = Some false /\
  VMOpts.hardforkByTD falseSelectorOpts = Some 5 /\
  constructor falseSelectorOpts eip3675World = inl (UnsupportedAmendment 3675) /\
  constructor falseSelectorOpts eip3675World <> inl ConflictingHardforkSelectors.
Proof.
  assert (Hrun : constructor falseSelectorOpts eip3675World
                 = inl (UnsupportedAmendment 3675)).
  { reflexivity. }
  split; [reflexivity|]. split; [reflexivity|]. split; [exact Hrun|].
  rewrite Hrun. discriminate.
Qed.

(** [hardforkByBlockNumber: false], [hardforkByTD] supplied, chain
    parameters at london and an environment facade: the conflict is
    reported although [false] is the default. *)
Lemma constructor_selector_false_conflicts_witness :
  (VMOpts.hardforkByBlockNumber falseSelectorFacadeOpts = Some false /\
   VMOpts.hardforkByTD falseSelectorFacadeOpts = Some 5 /\
   earlierChecks falseSelectorFacadeOpts sampleWorld
   = inr (1%positive, sampleWorld) /\
   VMOpts.eei falseSelectorFacadeOpts = Some (mkEEI 1 1 ∅ 1)) /\
  constructor falseSelectorFacadeOpts sampleWorld
  = inl ConflictingHardforkSelectors.
Proof.
  assert (Hearly : earlierChecks falseSelectorFacadeOpts sampleWorld
                   = inr (1%positive, sampleWorld)).
  { reflexivity. }
  destruct (constructor_selector_false_conflicts falseSelectorFacadeOpts
              sampleWorld 5 eq_refl eq_refl) as (_ & _ & _ & Hlate).
  split; [split; [reflexivity|split; [reflexivity|split; [exact Hearly|reflexivity]]]|].
  exact (Hlate _ _ _ Hearly eq_refl).
Defined.

(** ** Initialization *)

(** [init] on [sampleVM]: genesis funds the second precompile address, and
    priming gives the first one balance 1 inside a checkpoint. *)
Example sample_init_trace :
  trace (init sampleVM sampleWorld).2 =
    [ Call_blockchain_init 1; Call_generateCanonicalGenesis 1;
      Call_checkpoint 1;
      Call_getAccount 1
        (Buffer_fromHex "0000000000000000000000000000000000000001");
      Call_putAccount 1
        (Buffer_fromHex "0000000000000000000000000000000000000001")
        (mkAccount 0 1 KECCAK256_RLP KECCAK256_NULL);
      Call_getAccount 1
        (Buffer_fromHex "0000000000000000000000000000000000000002");
      Call_commit 1 ].
Proof. vm_compute. reflexivity. Qed.

(** A second [init] on [sampleVM] leaves what the first one left, with the
    seven calls of the first and none more. *)
Lemma init_idempotent_witness :
  init (init sampleVM sampleWorld).1 (init sampleVM sampleWorld).2
  = init sampleVM sampleWorld /\
  length (trace (init (init sampleVM sampleWorld).1
                      (init sampleVM sampleWorld).2).2) = 7%nat.
Proof.
  split.
  - exact (proj2 (init_idempotent sampleVM sampleWorld)).
  - rewrite (proj2 (init_idempotent sampleVM sampleWorld)). reflexivity.
Defined.

(** An engine over an external state store, with genesis and priming asked
    for: [init] calls [blockchain._init()] and nothing else. *)
Lemma init_external_state_store_witness :
  VMOpts.stateManager (_opts externalStoreVM) = Some 1%positive /\
  states (init externalStoreVM sampleWorld).2 = states sampleWorld /\
  trace (init externalStoreVM sampleWorld).2 = [Call_blockchain_init 1].
Proof.
  destruct (init_external_state_store externalStoreVM sampleWorld 1%positive eq_refl)
    as (_ & _ & Hstates & Htrace).
  split; [reflexivity|]. split; [exact Hstates|exact Htrace].
Defined.

(** Priming on [sampleVM]: the first precompile account, empty before, has
    balance 1 after; the second, funded by genesis, is as genesis left it. *)
Lemma init_precompile_priming_witness :
  (_isInitialized sampleVM = false /\
   VMOpts.activatePrecompiles (_opts sampleVM) = Some true /\
   VMOpts.stateManager (_opts sampleVM) = None /\
   is_Some (states sampleWorld !! state (eei sampleVM))) /\
  balance (account_at (init sampleVM sampleWorld).2 1
             (Buffer_fromHex "0000000000000000000000000000000000000001")) = 1 /\
  account_at (init sampleVM sampleWorld).2 1 sampleGenesisAddress
  = mkAccount 0 5 (Buffer_fromHex "aa") (Buffer_fromHex "c5d2").
Proof.
  assert (Hst : is_Some (states sampleWorld !! state (eei sampleVM))).
  { eexists. reflexivity. }
  destruct (init_precompile_priming sampleVM sampleWorld eq_refl eq_refl eq_refl Hst)
    as (Hprecompiles & _).
  split; [split; [reflexivity|split; [reflexivity|split; [reflexivity|exact Hst]]]|].
  split.
  - destruct (Hprecompiles "0000000000000000000000000000000000000001"%string)
      as [_ Hempty].
    + apply includes_spec. reflexivity.
    + destruct Hempty as [Hbalance _]; [reflexivity|].
      exact Hbalance.
  - destruct (Hprecompiles "0000000000000000000000000000000000000002"%string)
      as [Hfunded _].
    + apply includes_spec. reflexivity.
    + exact (Hfunded eq_refl).
Defined.

(** ** Copies *)

(** C7: [copy()] on an initialized engine returns no engine. With
    [suppliedEngine], the initialized engine that [VM.create] returns on
    options supplying chain parameters at london, a state store, a block
    store and an environment facade over them: [copy()] clones the three
    objects and calls [VM.create] without [eei], the constructor passes its
    checks on the cloned chain parameters and throws the ReferenceError of
    line 255, where [TransientStorage] is not declared. *)
Theorem copy_throws_reference_error :
  create suppliedOpts sampleWorld = inr (suppliedEngine, suppliedEngineWorld) /\
  _isInitialized suppliedEngine = true /\
  supported (common_at suppliedEngineWorld (_common suppliedEngine)) /\
  copy suppliedEngine suppliedEngineWorld
  = inl (ReferenceError "TransientStorage").
Proof.
  split; [reflexivity|]. split; [reflexivity|]. split.
  - split; [constructor|]. apply includes_spec. reflexivity.
  - reflexivity.
Qed.
(** * Further definitions *)

(** ** The secure trie *)

Module SecureTrieOps.

(** A write on a secure trie: [put(key, val)] or [del(key)]. *)
Inductive Op :=
| OpPut (key : Buffer) (val : SecureTrie.JsVal)
| OpDel (key : Buffer).

Section WithHash.

Variable keccak256 : Buffer -> Buffer.

Definition apply (t : SecureTrie.Trie) (op : Op) : SecureTrie.Trie :=
  match op with
  | OpPut key val => SecureTrie.put keccak256 t key val
  | OpDel key => SecureTrie.del keccak256 t key
  end.

(** The trie after the writes [ops], in order. *)
Definition run (ops : list Op) (t : SecureTrie.Trie) : SecureTrie.Trie :=
  foldl apply t ops.

End WithHash.

End SecureTrieOps.

Module SecureTrieStatic.

Section WithBase.

Variable keccak256 : Buffer -> Buffer.

(** The proofs of the base trie and its static methods [createProof] and
    [verifyProof] (which throws on an invalid proof, [None] here), neither
    among the sources. *)
Variable Proof : Type.
Variable Trie_createProof : SecureTrie.Trie -> Buffer -> Proof.
Variable Trie_verifyProof : Buffer -> Buffer -> Proof -> option (option Buffer).

(** [SecureTrie.createProof] *)
Definition createProof (trie : SecureTrie.Trie) (key : Buffer) : Proof :=
  let hash := keccak256 key in
  Trie_createProof trie hash.

(** [SecureTrie.prove], the deprecated name of [createProof] *)
Definition prove (trie : SecureTrie.Trie) (key : Buffer) : Proof :=
  createProof trie key.

(** [SecureTrie.verifyProof] *)
Definition verifyProof (rootHash key : Buffer) (proof : Proof)
  : option (option Buffer) :=
  let hash := keccak256 key in
  Trie_verifyProof rootHash hash proof.

End WithBase.

End SecureTrieStatic.

(** What [put] stores at the hash of the key: a non-empty buffer, or
    nothing. *)
Definition stored (val : SecureTrie.JsVal) : option Buffer :=
  match val with
  | SecureTrie.VBuffer (x :: b) => Some (x :: b)
  | _ => None
  end.

(** A trie holds no empty value. *)
Definition no_empty_value (t : SecureTrie.Trie) : Prop :=
  forall h, SecureTrie.content t !! h = None \/
            exists x b, SecureTrie.content t !! h = Some (x :: b).

(** ** The engine shell *)

(** The addresses read and the accounts written by a sequence of calls. *)
Definition reads (calls : list Call) : list Address :=
  omap (fun c => match c with
                 | Call_getAccount _ a => Some a
                 | _ => None
                 end) calls.

Definition writes (calls : list Call) : list (Address * Account) :=
  omap (fun c => match c with
                 | Call_putAccount _ a acct => Some (a, acct)
                 | _ => None
                 end) calls.

Section EngineViews.

Context `{Collaborators}.

(** The chain parameters that are to become [this._common]: those supplied,
    or the default ones. *)
Definition resolvedCommon (opts : VMOpts.t) (w : World) : Common :=
  match VMOpts.common opts with
  | Some c => common_at w c
  | None => Common_mainnet
  end.

(** The heap in which [copy] calls [VM.create]: the three clones are new
    objects with the content of the engine's. *)
Definition clones (vm : VM) (w : World) : World :=
  set_commons <[fresh (dom (commons w)) := common_at w (_common vm)]>
    (set_chains <[fresh (dom (chains w)) := chain_at w (blockchain vm)]>
       (set_states <[fresh (dom (states w)) := state_at w (stateManager vm)]> w)).

End EngineViews.

(** ** Concrete inputs *)

(** Options supplying chain parameters and a custom environment facade
    bound to the state store at location 2, with [hardforkByBlockNumber]
    and both optional steps of [init]; a heap holding those chain parameters
    and that store; and the engine and the heap the constructor makes. *)
Definition facadeOpts : VMOpts.t :=
  VMOpts.mk false false (Some 1%positive) None None (Some true) (Some true)
            (Some true) None (Some (mkEEI 2 1 ∅ 1)) None.

Definition facadeWorld : World :=
  mkWorld {[ 1%positive := mkCommon [1559] London ]}
          {[ 2%positive := DefaultStateManager_new 1 ]}
          ∅ [].

Definition facadeVM : VM :=
  mkVM 3 1 1 (mkEVM 1 1 (mkEEI 2 1 ∅ 1)) (mkEEI 2 1 ∅ 1) facadeOpts
       false true None false.

Definition facadeBuiltWorld : World :=
  mkWorld {[ 1%positive := mkCommon [1559] London ]}
          (<[ 3%positive := DefaultStateManager_new 1 ]>
             {[ 2%positive := DefaultStateManager_new 1 ]})
          {[ 1%positive := false ]}
          [].

(** A base trie whose proof is its whole content, accepted when it has the
    root asked for: the proof [prove] makes on [sampleTrie] for a key
    verifies for that key. *)
Definition sampleCreateProof (t : SecureTrie.Trie) (h : Buffer)
  : gmap Buffer Buffer :=
  SecureTrie.content t.

Definition sampleVerifyProof (rootHash h : Buffer) (proof : gmap Buffer Buffer)
  : option (option Buffer) :=
  if decide (SecureTrie.sampleRootOf proof = rootHash) then Some (proof !! h)
  else None.

(** * Further properties of the constructor *)

Section ConstructorFacts.

Context `{Collaborators}.

(** The loop over [common.eips()] stops at the first amendment outside
    [supportedEIPs]. *)
Lemma find_unsupported_first (l : list Z) (eip : Z) :
  List.find (fun eip => negb (includes supportedEIPs eip)) l = Some eip <->
  exists pre post,
    l = pre ++ eip :: post /\
    Forall (fun e => e ∈ supportedEIPs) pre /\
    eip ∉ supportedEIPs.
Proof.
  induction l as [|x l IH]; simpl.
  - split; [done|]. intros (pre & post & Hl & _). by destruct pre.
  - destruct (includes supportedEIPs x) eqn:Hx; simpl.
    + apply includes_spec in Hx. rewrite IH. split.
      * intros (pre & post & -> & Hpre & Hout).
        exists (x :: pre), post. split; [done|]. split; [by constructor|done].
      * intros (pre & post & Hl & Hpre & Hout).
        destruct pre as [|y pre]; simpl in Hl.
        -- injection Hl as -> _. done.
        -- injection Hl as -> ->. apply Forall_cons in Hpre as [_ Hpre].
           by exists pre, post.
    + assert (Hout : x ∉ supportedEIPs).
      { intros Hin. apply includes_spec in Hin. congruence. }
      split.
      * intros [= ->]. exists [], l. by split.
      * intros (pre & post & Hl & Hpre & Hout').
        destruct pre as [|y pre]; simpl in Hl.
        -- by injection Hl as -> _.
        -- injection Hl as -> _. by apply Forall_cons in Hpre as [? _].
Qed.

(** What it takes to pass the checks that come before the collaborators
    are set up. *)
Lemma earlierChecks_passed (opts : VMOpts.t) (w w1 : World) (c : loc) :
  earlierChecks opts w = inr (c, w1) <->
  VMOpts.has_chain opts || VMOpts.has_hardfork opts = false /\
  setupCommon opts w = inr (c, w1) /\
  hardfork (common_at w1 c) ∈ supportedHardforks.
Proof.
  unfold earlierChecks, resolveCommon, mbind, M_bind, rejectLegacy.
  destruct (VMOpts.has_chain opts || VMOpts.has_hardfork opts); simpl.
  { split; [done|]. by intros [? _]. }
  destruct (setupCommon opts w) as [e|[c' w']].
  { split; [done|]. by intros (_ & ? & _). }
  rewrite checkHardfork_spec.
  destruct (decide (hardfork (common_at w' c') ∈ supportedHardforks)) as [Hin|Hout].
  - unfold mret, M_ret. split.
    + intros [= -> ->]. done.
    + intros (_ & [= -> ->] & _). done.
  - split; [done|]. intros (_ & [= -> ->] & Hin). done.
Qed.

(** [this._common] holds the resolved chain parameters. *)
Lemma setupCommon_resolved (opts : VMOpts.t) (w w1 : World) (c : loc) :
  setupCommon opts w = inr (c, w1) ->
  common_at w1 c = resolvedCommon opts w /\
  (forall c0, VMOpts.common opts = Some c0 ->
     c = c0 /\ w1 = w /\
     Forall (fun e => e ∈ supportedEIPs) (eips (common_at w c0))) /\
  (VMOpts.common opts = None ->
     c = fresh (dom (commons w)) /\
     w1 = set_commons <[c := Common_mainnet]> w).
Proof.
  unfold setupCommon, resolvedCommon.
  destruct (VMOpts.common opts) as [c0|].
  - destruct (List.find _ _) eqn:Hfind; [done|]. intros [= -> ->].
    split; [done|]. split; [|done]. intros ? [= <-].
    split; [done|]. split; [done|]. by apply find_unsupported_none_inv.
  - unfold alloc_common. intros [= <- <-]. split.
    + unfold common_at. simpl. by rewrite lookup_total_insert_eq.
    + split; [done|]. done.
Qed.

(** X1: the constructor returns an engine exactly when the options have no
    legacy key, every amendment of supplied chain parameters is in
    [supportedEIPs], the rule-set tag of the resolved chain parameters is in
    [supportedHardforks], an environment facade is supplied (without one the
    constructor evaluates the undeclared [TransientStorage]), at most one of
    the two hardfork selectors is defined, and [toType] converts
    [hardforkByTD] when it is given. *)
Theorem constructor_succeeds_iff (opts : VMOpts.t) (w : World) :
  (exists vm w', constructor opts w = inr (vm, w')) <->
  VMOpts.has_chain opts = false /\
  VMOpts.has_hardfork opts = false /\
  (forall c, VMOpts.common opts = Some c ->
     Forall (fun e => e ∈ supportedEIPs) (eips (common_at w c))) /\
  hardfork (resolvedCommon opts w) ∈ supportedHardforks /\
  is_Some (VMOpts.eei opts) /\
  (VMOpts.hardforkByBlockNumber opts = None \/ VMOpts.hardforkByTD opts = None) /\
  (forall td, VMOpts.hardforkByTD opts = Some td -> is_Some (toType_BigInt td)).
Proof.
  split.
  - intros (vm & w' & Hcons).
    destruct (earlierChecks opts w) as [e|[c w1]] eqn:Hearly.
    { apply constructor_earlier_error in Hearly. congruence. }
    pose proof Hearly as Hpassed.
    apply earlierChecks_passed in Hpassed as (Hleg & Hsetup & Hhf).
    apply orb_false_iff in Hleg as [Hchain Hfork].
    destruct (setupCommon_resolved _ _ _ _ Hsetup) as (Hres & Hsome & _).
    split; [done|]. split; [done|]. split.
    { intros c0 Hc0. by destruct (Hsome c0 Hc0) as (_ & _ & ?). }
    split; [by rewrite <- Hres|].
    destruct (constructor_after_earlier _ _ _ _ Hearly)
      as (Hnone & Hconflict & Hthrows & _).
    assert (Heei : is_Some (VMOpts.eei opts)).
    { destruct (VMOpts.eei opts); [eauto|].
      rewrite Hnone in Hcons by done. discriminate Hcons. }
    split; [exact Heei|].
    assert (Hsel : defined (VMOpts.hardforkByBlockNumber opts)
                   && defined (VMOpts.hardforkByTD opts) = false).
    { destruct (defined _ && defined _) eqn:Hsel; [|done].
      rewrite (Hconflict Heei eq_refl) in Hcons. discriminate Hcons. }
    split.
    + destruct (VMOpts.hardforkByBlockNumber opts); [|by left].
      destruct (VMOpts.hardforkByTD opts); [done|by right].
    + intros td Htd. destruct (toType_BigInt td) eqn:Hv; [eauto|].
      rewrite (Hthrows Heei Hsel td Htd Hv) in Hcons. discriminate Hcons.
  - intros (Hchain & Hfork & Heips & Hhf & Heei & Hsel & Hconv).
    assert (Hsetup : exists c w1, setupCommon opts w = inr (c, w1)).
    { unfold setupCommon. destruct (VMOpts.common opts) as [c0|] eqn:Hc0.
      - rewrite (find_unsupported_none _ (Heips c0 eq_refl)). eauto.
      - unfold alloc_common. eauto. }
    destruct Hsetup as (c & w1 & Hsetup).
    destruct (setupCommon_resolved _ _ _ _ Hsetup) as (Hres & _).
    assert (Hearly : earlierChecks opts w = inr (c, w1)).
    { apply earlierChecks_passed. rewrite Hchain, Hfork, Hres. done. }
    destruct (constructor_after_earlier _ _ _ _ Hearly) as (_ & _ & _ & Hok).
    destruct Hok as (vm & w' & Hcons & _); [done| |done|eauto].
    destruct Hsel as [-> | ->]; [done|]. apply andb_false_r.
Qed.

(** X2: the constructor throws the unsupported-amendment error for [eip]
    exactly when the options have no legacy key, chain parameters are
    supplied, and [eip] is the first of their amendments, in the order of
    [common.eips()], that is outside [supportedEIPs]; the rule-set tag and
    the hardfork selectors play no part. *)
Theorem constructor_unsupported_amendment (opts : VMOpts.t) (w : World) (eip : Z) :
  constructor opts w = inl (UnsupportedAmendment eip) <->
  VMOpts.has_chain opts = false /\
  VMOpts.has_hardfork opts = false /\
  exists c pre post,
    VMOpts.common opts = Some c /\
    eips (common_at w c) = pre ++ eip :: post /\
    Forall (fun e => e ∈ supportedEIPs) pre /\
    eip ∉ supportedEIPs.
Proof.
  split.
  - intros Hcons.
    destruct (earlierChecks opts w) as [e|[c w1]] eqn:Hearly.
    + pose proof (constructor_earlier_error _ _ _ Hearly) as He.
      rewrite He in Hcons. injection Hcons as ->.
      revert Hearly.
      unfold earlierChecks, resolveCommon, mbind, M_bind, rejectLegacy.
      destruct (VMOpts.has_chain opts) eqn:Hchain; [done|].
      destruct (VMOpts.has_hardfork opts) eqn:Hfork; [done|]. simpl.
      unfold setupCommon. destruct (VMOpts.common opts) as [c|] eqn:Hc.
      * destruct (List.find _ _) as [eip'|] eqn:Hfind.
        -- intros [= ->]. apply find_unsupported_first in Hfind
             as (pre & post & Hl & Hpre & Hout).
           split; [done|]. split; [done|]. by exists c, pre, post.
        -- rewrite checkHardfork_spec. by destruct (decide _).
      * unfold alloc_common. rewrite checkHardfork_spec. by destruct (decide _).
    + destruct (constructor_late_outcome _ _ _ _ Hearly)
        as [(vm & w' & Hvm & _)|[Hvm|[Hvm|[td Hvm]]]];
        rewrite Hvm in Hcons; discriminate Hcons.
  - intros (Hchain & Hfork & c & pre & post & Hc & Hl & Hpre & Hout).
    apply constructor_earlier_error.
    unfold earlierChecks, resolveCommon. apply bind_throws.
    unfold mbind, M_bind, rejectLegacy. rewrite Hchain, Hfork. simpl.
    unfold setupCommon. rewrite Hc.
    assert (Hfind : List.find (fun e => negb (includes supportedEIPs e))
                      (eips (common_at w c)) = Some eip).
    { apply find_unsupported_first. by exists pre, post. }
    by rewrite Hfind.
Qed.

End ConstructorFacts.

Section ConstructionResult.

Context `{Collaborators}.

(** The constructor step by step, on options that make it return. *)
Lemma constructor_returns (opts : VMOpts.t) (w w' : World) (vm : VM) :
  constructor opts w = inr (vm, w') ->
  exists c w1 sm w2 bc e td,
    setupCommon opts w = inr (c, w1) /\
    match VMOpts.stateManager opts with
    | Some l => mret l
    | None => alloc_state (DefaultStateManager_new c)
    end w1 = inr (sm, w2) /\
    match VMOpts.blockchain opts with
    | Some l => mret l
    | None => alloc_chain (Blockchain_new c)
    end w2 = inr (bc, w') /\
    VMOpts.eei opts = Some e /\
    defined (VMOpts.hardforkByBlockNumber opts)
    && defined (VMOpts.hardforkByTD opts) = false /\
    td = VMOpts.hardforkByTD opts ≫= toType_BigInt /\
    vm = mkVM sm bc c
           (default (mkEVM c bc e) (VMOpts.evm opts))
           e opts false
           (default false (VMOpts.hardforkByBlockNumber opts))
           td process_env_DEBUG.
Proof.
  unfold constructor, mbind at 1 2 3 4 5 6 7 8, M_bind, rejectLegacy.
  destruct (VMOpts.has_chain opts || VMOpts.has_hardfork opts); [done|]. simpl.
  destruct (setupCommon opts w) as [?|[c w1]]; [done|].
  rewrite checkHardfork_spec. destruct (decide _); [|done].
  destruct (match VMOpts.stateManager opts with
            | Some l => mret l
            | None => alloc_state (DefaultStateManager_new c)
            end w1) as [?|[sm w2]] eqn:Hsm; [done|].
  destruct (match VMOpts.blockchain opts with
            | Some l => mret l
            | None => alloc_chain (Blockchain_new c)
            end w2) as [?|[bc w3]] eqn:Hbc; [done|].
  unfold setupEEI. destruct (VMOpts.eei opts) as [facade|] eqn:Heei; [|done].
  unfold mret at 1, M_ret at 1. unfold checkSelectors.
  destruct (defined (VMOpts.hardforkByBlockNumber opts)
            && defined (VMOpts.hardforkByTD opts)) eqn:Hsel; [done|].
  unfold mret at 1, M_ret at 1. unfold convertTD.
  destruct (VMOpts.hardforkByTD opts) as [td0|] eqn:Htd.
  - destruct (toType_BigInt td0) as [v|] eqn:Hv; [|done].
    unfold mret, M_ret. intros [= <- <-].
    exists c, w1, sm, w2, bc, facade, (Some v). simpl. rewrite Hv.
    repeat split; done.
  - unfold mret, M_ret. intros [= <- <-].
    exists c, w1, sm, w2, bc, facade, None.
    repeat split; done.
Qed.

(** X3: the constructor only allocates. When it returns an engine it has
    made none of the calls of [init] on a state store or a block store,
    every object of the heap is as it was, an object supplied in the
    options is held by reference (the same location, nothing copied), and
    for each of chain parameters, state store and block store that is not
    supplied exactly one new object is created: the default chain
    parameters, and a new state store and a new block store, both built on
    the engine's chain parameters. *)
Theorem constructor_allocates_only (opts : VMOpts.t) (w w' : World) (vm : VM) :
  constructor opts w = inr (vm, w') ->
  trace w' = trace w /\
  (commons w ⊆ commons w' /\ states w ⊆ states w' /\ chains w ⊆ chains w') /\
  match VMOpts.common opts with
  | Some c => _common vm = c /\ commons w' = commons w
  | None => commons w !! _common vm = None /\
            commons w' = <[_common vm := Common_mainnet]> (commons w)
  end /\
  match VMOpts.stateManager opts with
  | Some l => stateManager vm = l /\ states w' = states w
  | None => states w !! stateManager vm = None /\
            states w' = <[stateManager vm := DefaultStateManager_new (_common vm)]>
                          (states w)
  end /\
  match VMOpts.blockchain opts with
  | Some l => blockchain vm = l /\ chains w' = chains w
  | None => chains w !! blockchain vm = None /\
            chains w' = <[blockchain vm := Blockchain_new (_common vm)]> (chains w)
  end.
Proof.
  intros Hcons.
  destruct (constructor_returns _ _ _ _ Hcons)
    as (c & w1 & sm & w2 & bc & e & td & Hc & Hsm & Hbc & _ & _ & _ & ->).
  cbn [_common stateManager blockchain].
  assert (H1 : trace w1 = trace w /\ states w1 = states w /\ chains w1 = chains w /\
               match VMOpts.common opts with
               | Some c0 => c = c0 /\ commons w1 = commons w
               | None => commons w !! c = None /\
                         commons w1 = <[c := Common_mainnet]> (commons w)
               end).
  { revert Hc. unfold setupCommon. destruct (VMOpts.common opts) as [c0|].
    - destruct (List.find _ _); [done|]. by intros [= -> ->].
    - unfold alloc_common. intros [= <- <-]. simpl.
      repeat split. apply not_elem_of_dom, is_fresh. }
  assert (H2 : trace w2 = trace w1 /\ commons w2 = commons w1 /\
               chains w2 = chains w1 /\
               match VMOpts.stateManager opts with
               | Some l => sm = l /\ states w2 = states w1
               | None => states w1 !! sm = None /\
                         states w2 = <[sm := DefaultStateManager_new c]> (states w1)
               end).
  { revert Hsm. destruct (VMOpts.stateManager opts) as [l|].
    - by intros [= -> ->].
    - unfold alloc_state. intros [= <- <-]. simpl.
      repeat split. apply not_elem_of_dom, is_fresh. }
  assert (H3 : trace w' = trace w2 /\ commons w' = commons w2 /\
               states w' = states w2 /\
               match VMOpts.blockchain opts with
               | Some l => bc = l /\ chains w' = chains w2
               | None => chains w2 !! bc = None /\
                         chains w' = <[bc := Blockchain_new c]> (chains w2)
               end).
  { revert Hbc. destruct (VMOpts.blockchain opts) as [l|].
    - by intros [= -> ->].
    - unfold alloc_chain. intros [= <- <-]. simpl.
      repeat split. apply not_elem_of_dom, is_fresh. }
  destruct H1 as (Ht1 & Hs1 & Hb1 & Hc1), H2 as (Ht2 & Hc2 & Hb2 & Hs2),
    H3 as (Ht3 & Hc3 & Hs3 & Hb3).
  split; [congruence|].
  assert (Hcm : match VMOpts.common opts with
                | Some c0 => c = c0 /\ commons w' = commons w
                | None => commons w !! c = None /\
                          commons w' = <[c := Common_mainnet]> (commons w)
                end).
  { rewrite Hc3, Hc2. exact Hc1. }
  assert (Hst : match VMOpts.stateManager opts with
                | Some l => sm = l /\ states w' = states w
                | None => states w !! sm = None /\
                          states w' = <[sm := DefaultStateManager_new c]> (states w)
                end).
  { rewrite Hs3, <- Hs1. exact Hs2. }
  assert (Hch : match VMOpts.blockchain opts with
                | Some l => bc = l /\ chains w' = chains w
                | None => chains w !! bc = None /\
                          chains w' = <[bc := Blockchain_new c]> (chains w)
                end).
  { rewrite <- Hb1, <- Hb2. exact Hb3. }
  split; [|done].
  split; [|split].
  - destruct (VMOpts.common opts); destruct Hcm as [Hf ->]; [done|].
    by apply insert_subseteq.
  - destruct (VMOpts.stateManager opts); destruct Hst as [Hf ->]; [done|].
    by apply insert_subseteq.
  - destruct (VMOpts.blockchain opts); destruct Hch as [Hf ->]; [done|].
    by apply insert_subseteq.
Qed.


End ConstructionResult.

(** * Further properties of initialization *)

Section InitFacts.

Context `{Collaborators}.

Lemma init_not_initialized (vm : VM) (w : World) :
  _isInitialized vm = false ->
  (init vm w).2
  = init_precompiles vm (init_genesis vm (blockchain_init (blockchain vm) w)).
Proof. unfold init. by intros ->. Qed.

(** One visit of the loop leaves the other stores of the heap alone. *)
Lemma prime_precompile_states (st : loc) (w : World) (k : string) :
  dom (states (prime_precompile st w k)) = dom (states w) /\
  forall l, l <> st -> states (prime_precompile st w k) !! l = states w !! l.
Proof.
  unfold prime_precompile, getAccount. destruct (isEmpty _); [|done].
  simpl. split; [apply dom_alter_L|].
  intros l Hl. by apply lookup_alter_ne.
Qed.

Lemma prime_all_states (st : loc) (ks : list string) (w : World) :
  dom (states (foldl (prime_precompile st) w ks)) = dom (states w) /\
  forall l, l <> st ->
    states (foldl (prime_precompile st) w ks) !! l = states w !! l.
Proof.
  revert w. induction ks as [|k ks IH]; intros w; [done|].
  cbn [foldl]. destruct (IH (prime_precompile st w k)) as [Hd Hl].
  destruct (prime_precompile_states st w k) as [Hd1 Hl1].
  split; [congruence|]. intros l Hne. rewrite Hl, Hl1; done.
Qed.

(** X5: [init] works on the store of the environment facade and on the
    engine's block store, and on nothing else (each call on a collaborator
    acting on its receiver): the chain parameters are not
    changed, no object is created or dropped, every state store other than
    [this.eei.state] and every block store other than [this.blockchain] is
    as it was. So with a custom facade bound to another store, the engine's
    own [stateManager] gets neither genesis nor primed precompiles. *)
Theorem init_touches_facade_store_only (vm : VM) (w : World) :
  commons (init vm w).2 = commons w /\
  (dom (states (init vm w).2) = dom (states w) /\
   dom (chains (init vm w).2) = dom (chains w)) /\
  (forall l, l <> state (eei vm) -> states (init vm w).2 !! l = states w !! l) /\
  (forall l, l <> blockchain vm -> chains (init vm w).2 !! l = chains w !! l).
Proof.
  unfold init. destruct (_isInitialized vm); [done|]. cbn [snd].
  set (w1 := blockchain_init (blockchain vm) w).
  set (w2 := init_genesis vm w1).
  assert (H2 : commons w2 = commons w /\ chains w2 = chains w1 /\
               dom (states w2) = dom (states w) /\
               forall l, l <> state (eei vm) -> states w2 !! l = states w !! l).
  { unfold w2, init_genesis. destruct (negb _); [|done].
    destruct (truthy_bool _); [|done]. simpl.
    split; [done|]. split; [done|]. split; [apply dom_alter_L|].
    intros l Hl. by apply lookup_alter_ne. }
  destruct H2 as (Hc2 & Hb2 & Hd2 & Hs2).
  assert (H3 : commons (init_precompiles vm w2) = commons w2 /\
               chains (init_precompiles vm w2) = chains w2 /\
               dom (states (init_precompiles vm w2)) = dom (states w2) /\
               forall l, l <> state (eei vm) ->
                 states (init_precompiles vm w2) !! l = states w2 !! l).
  { unfold init_precompiles. destruct (_ && _); [|done].
    set (ks := getActivePrecompiles _).
    destruct (prime_all_frame (state (eei vm)) ks (checkpoint (state (eei vm)) w2))
      as (Hc & Hb & _).
    destruct (prime_all_states (state (eei vm)) ks (checkpoint (state (eei vm)) w2))
      as (Hd & Hl).
    unfold commit. simpl. split; [by rewrite Hc|]. split; [by rewrite Hb|].
    split.
    - rewrite dom_alter_L, Hd. simpl. apply dom_alter_L.
    - intros l Hne. rewrite lookup_alter_ne, Hl by done. simpl.
      by apply lookup_alter_ne. }
  destruct H3 as (Hc3 & Hb3 & Hd3 & Hs3).
  split; [congruence|]. split.
  { split; [congruence|]. rewrite Hb3, Hb2. simpl. apply dom_alter_L. }
  split.
  - intros l Hl. rewrite Hs3, Hs2; done.
  - intros l Hl. rewrite Hb3, Hb2. simpl. by apply lookup_alter_ne.
Qed.

(** The accounts after the priming block, from those before it. *)
Lemma init_precompiles_accounts (vm : VM) (w : World) :
  VMOpts.activatePrecompiles (_opts vm) = Some true ->
  VMOpts.stateManager (_opts vm) = None ->
  is_Some (states w !! state (eei vm)) ->
  forall a,
    account_at (init_precompiles vm w) (state (eei vm)) a =
      if decide (a ∈ Address_fromHex <$>
                       getActivePrecompiles (common_at w (_common vm)))
      then primed (account_at w (state (eei vm)) a)
      else account_at w (state (eei vm)) a.
Proof.
  intros Hact Hsm Hst a. set (st := state (eei vm)).
  unfold init_precompiles. rewrite Hact, Hsm. simpl.
  assert (Hstc : is_Some (states (checkpoint st w) !! st)).
  { by apply allocated_alter. }
  destruct (prime_all_spec st (getActivePrecompiles (common_at w (_common vm)))
              _ Hstc) as (Hst2 & _ & _ & Ha & _).
  assert (Hchk : account_at (checkpoint st w) st a = account_at w st a).
  { unfold account_at, checkpoint.
    by rewrite state_at_log, state_at_alter by done. }
  rewrite <- Hchk, <- (Ha a). unfold account_at, commit.
  by rewrite state_at_log, state_at_alter by done.
Qed.

Lemma primed_fields (a : Account) :
  nonce (primed a) = nonce a /\
  codeHash (primed a) = codeHash a /\
  stateRoot (primed a) = stateRoot a /\
  (balance (primed a) = balance a \/ balance a = 0 /\ balance (primed a) = 1).
Proof.
  unfold primed. destruct (isEmpty a) eqn:E; [|by auto].
  unfold isEmpty in E.
  apply andb_true_iff in E as [E Hcode]. apply andb_true_iff in E as [Hbal Hnonce].
  apply Z.eqb_eq in Hbal, Hnonce. apply bool_decide_eq_true in Hcode.
  simpl. rewrite Hnonce, Hcode, Hbal. split; [done|]. split; [done|].
  split; [done|]. by right.
Qed.

End InitFacts.

Section PrimingFacts.

Context `{Collaborators}.

Lemma init_precompiles_commons (vm : VM) (w : World) :
  commons (init_precompiles vm w) = commons w.
Proof.
  unfold init_precompiles. destruct (_ && _); [|done].
  unfold commit. simpl.
  by destruct (prime_all_frame (state (eei vm))
                 (getActivePrecompiles
                    (common_at (checkpoint (state (eei vm)) w) (_common vm)))
                 (checkpoint (state (eei vm)) w)) as (-> & _).
Qed.

Lemma init_genesis_commons (vm : VM) (w : World) :
  commons (init_genesis vm (blockchain_init (blockchain vm) w)) = commons w.
Proof.
  unfold init_genesis. destruct (negb _); [|done]. by destruct (truthy_bool _).
Qed.

(** X6: after [init] with [activatePrecompiles] and no external state
    store, no active precompile has an empty account in the store of the
    environment facade, which is what the priming is for: a call to a
    precompile then never pays for a new account. *)
Theorem init_leaves_precompiles_non_empty (vm : VM) (w : World) :
  _isInitialized vm = false ->
  VMOpts.activatePrecompiles (_opts vm) = Some true ->
  VMOpts.stateManager (_opts vm) = None ->
  is_Some (states w !! state (eei vm)) ->
  forall addressStr,
    addressStr ∈ getActivePrecompiles (common_at (init vm w).2 (_common vm)) ->
    isEmpty (account_at (init vm w).2 (state (eei vm)) (Address_fromHex addressStr))
    = false.
Proof.
  intros Hinit Hact Hsm Hst k. rewrite (init_not_initialized _ _ Hinit).
  set (w0 := init_genesis vm (blockchain_init (blockchain vm) w)).
  assert (Hst0 : is_Some (states w0 !! state (eei vm))).
  { by apply init_genesis_allocated. }
  unfold common_at. rewrite init_precompiles_commons. fold (common_at w0 (_common vm)).
  intros Hk. rewrite (init_precompiles_accounts vm w0 Hact Hsm Hst0).
  rewrite decide_True by (by apply list_elem_of_fmap_2).
  apply primed_not_empty.
Qed.

(** X7: priming changes balances only, and only from 0 to 1. Across the
    priming block of [init], every account of the store keeps its nonce, its
    code hash and its storage root, and its balance either stays or goes
    from 0 to 1; nothing is removed. *)
Theorem init_priming_preserves_accounts (vm : VM) (w : World) :
  _isInitialized vm = false ->
  VMOpts.activatePrecompiles (_opts vm) = Some true ->
  VMOpts.stateManager (_opts vm) = None ->
  is_Some (states w !! state (eei vm)) ->
  forall a,
    nonce (account_at (init vm w).2 (state (eei vm)) a)
    = nonce (account_at (init_genesis vm (blockchain_init (blockchain vm) w))
                        (state (eei vm)) a) /\
    codeHash (account_at (init vm w).2 (state (eei vm)) a)
    = codeHash (account_at (init_genesis vm (blockchain_init (blockchain vm) w))
                           (state (eei vm)) a) /\
    stateRoot (account_at (init vm w).2 (state (eei vm)) a)
    = stateRoot (account_at (init_genesis vm (blockchain_init (blockchain vm) w))
                            (state (eei vm)) a) /\
    (balance (account_at (init vm w).2 (state (eei vm)) a)
     = balance (account_at (init_genesis vm (blockchain_init (blockchain vm) w))
                           (state (eei vm)) a) \/
     balance (account_at (init_genesis vm (blockchain_init (blockchain vm) w))
                         (state (eei vm)) a) = 0 /\
     balance (account_at (init vm w).2 (state (eei vm)) a) = 1).
Proof.
  intros Hinit Hact Hsm Hst a. rewrite (init_not_initialized _ _ Hinit).
  set (w0 := init_genesis vm (blockchain_init (blockchain vm) w)).
  assert (Hst0 : is_Some (states w0 !! state (eei vm))).
  { by apply init_genesis_allocated. }
  rewrite (init_precompiles_accounts vm w0 Hact Hsm Hst0).
  destruct (decide _); [apply primed_fields | by auto].
Qed.

(** The calls of the loop: one read per key, in order; a write only at an
    address whose account was empty when the loop started, with the primed
    account; no address written twice. *)
Lemma prime_all_calls (st : loc) (ks : list string) (w : World) :
  is_Some (states w !! st) ->
  exists calls,
    trace (foldl (prime_precompile st) w ks) = trace w ++ calls /\
    reads calls = Address_fromHex <$> ks /\
    Forall (fun p : Address * Account =>
              p.1 ∈ Address_fromHex <$> ks /\
              isEmpty (account_at w st p.1) = true /\
              p.2 = mkAccount 0 1 (stateRoot (account_at w st p.1)) KECCAK256_NULL)
           (writes calls) /\
    NoDup (writes calls).*1 /\
    Forall (is_account_call st) calls.
Proof.
  revert w. induction ks as [|k ks IH]; intros w Hst.
  - exists []. cbn [foldl]. rewrite app_nil_r. repeat split; try done.
    apply NoDup_nil_2.
  - cbn [foldl].
    destruct (prime_precompile_spec st w k Hst) as (Hst1 & _ & _ & Ha1 & _).
    destruct (IH _ Hst1) as (calls2 & Ht2 & Hr2 & Hw2 & Hn2 & Hf2).
    (* what the writes of the rest say about the heap at the start *)
    assert (Hw2' : Forall (fun p : Address * Account =>
              p.1 <> Address_fromHex k /\
              p.1 ∈ Address_fromHex <$> k :: ks /\
              isEmpty (account_at w st p.1) = true /\
              p.2 = mkAccount 0 1 (stateRoot (account_at w st p.1)) KECCAK256_NULL)
             (writes calls2)).
    { eapply Forall_impl; [exact Hw2|]. intros [a acct]. simpl.
      intros (Hin & Hempty & Hacct). rewrite Ha1 in Hempty, Hacct.
      destruct (decide (a = Address_fromHex k)) as [->|Hne].
      - by rewrite primed_not_empty in Hempty.
      - split; [done|]. split; [|done].
        apply (elem_of_cons (Address_fromHex <$> ks)). by right. }
    unfold prime_precompile, getAccount in *.
    fold (account_at w st (Address_fromHex k)) in *.
    destruct (isEmpty (account_at w st (Address_fromHex k))) eqn:E.
    + exists ([Call_getAccount st (Address_fromHex k);
               Call_putAccount st (Address_fromHex k)
                 (fromAccountData None (Some 1)
                    (Some (stateRoot (account_at w st (Address_fromHex k)))) None)]
              ++ calls2).
      split.
      { rewrite Ht2. unfold putAccount. simpl. by rewrite <- !app_assoc. }
      split.
      { unfold reads in *. rewrite omap_app, Hr2. done. }
      split.
      { unfold writes in *. rewrite omap_app. apply Forall_app. split.
        - simpl. constructor; [|done]. simpl. split; [|done].
          apply (elem_of_cons (Address_fromHex <$> ks)). by left.
        - eapply Forall_impl; [exact Hw2'|]. by intros p (_ & ? & ? & ?). }
      split.
      { unfold writes in *. rewrite omap_app, fmap_app. simpl.
        apply NoDup_cons. split; [|done].
        intros Hin. apply list_elem_of_fmap in Hin as (p & Hp1 & Hp).
        rewrite Forall_forall in Hw2'. destruct (Hw2' p Hp) as [Hne _]. done. }
      apply Forall_app. split; [|done]. repeat constructor.
    + exists ([Call_getAccount st (Address_fromHex k)] ++ calls2).
      split.
      { rewrite Ht2. simpl. by rewrite <- !app_assoc. }
      split.
      { unfold reads in *. rewrite omap_app, Hr2. done. }
      split.
      { unfold writes in *. rewrite omap_app. simpl.
        eapply Forall_impl; [exact Hw2'|]. by intros p (_ & ? & ? & ?). }
      split.
      { unfold writes in *. by rewrite omap_app. }
      apply Forall_app. split; [|done]. repeat constructor.
Qed.

(** X8: the calls of the priming block. After one [checkpoint()] and before
    one [commit()], [init] reads the account of each active precompile once,
    in the order of [getActivePrecompiles]; it writes only at precompile
    addresses whose account was empty when priming started, each at most
    once, and what it writes there is the account with nonce 0, balance 1,
    the storage root it had and the hash of the empty code. *)
Theorem init_priming_calls (vm : VM) (w : World) :
  _isInitialized vm = false ->
  VMOpts.activatePrecompiles (_opts vm) = Some true ->
  VMOpts.stateManager (_opts vm) = None ->
  is_Some (states w !! state (eei vm)) ->
  exists calls,
    trace (init vm w).2
    = trace (init_genesis vm (blockchain_init (blockchain vm) w))
      ++ [Call_checkpoint (state (eei vm))] ++ calls
      ++ [Call_commit (state (eei vm))] /\
    reads calls
    = Address_fromHex <$>
        getActivePrecompiles
          (common_at (init_genesis vm (blockchain_init (blockchain vm) w))
                     (_common vm)) /\
    Forall (fun p : Address * Account =>
              p.1 ∈ Address_fromHex <$>
                      getActivePrecompiles
                        (common_at (init_genesis vm
                                      (blockchain_init (blockchain vm) w))
                                   (_common vm)) /\
              isEmpty (account_at (init_genesis vm
                                     (blockchain_init (blockchain vm) w))
                                  (state (eei vm)) p.1) = true /\
              p.2 = mkAccount 0 1
                      (stateRoot (account_at
                                    (init_genesis vm
                                       (blockchain_init (blockchain vm) w))
                                    (state (eei vm)) p.1))
                      KECCAK256_NULL)
           (writes calls) /\
    NoDup (writes calls).*1.
Proof.
  intros Hinit Hact Hsm Hst. rewrite (init_not_initialized _ _ Hinit).
  set (w0 := init_genesis vm (blockchain_init (blockchain vm) w)).
  set (st := state (eei vm)).
  assert (Hst0 : is_Some (states w0 !! st)).
  { by apply init_genesis_allocated. }
  assert (Hstc : is_Some (states (checkpoint st w0) !! st)).
  { by apply allocated_alter. }
  destruct (prime_all_calls st (getActivePrecompiles (common_at w0 (_common vm)))
              _ Hstc) as (calls & Ht & Hr & Hw & Hn & _).
  exists calls. split.
  { unfold init_precompiles. rewrite Hact, Hsm. simpl.
    fold st. change (common_at (checkpoint st w0) (_common vm))
      with (common_at w0 (_common vm)).
    rewrite Ht. unfold checkpoint. simpl. by rewrite <- !app_assoc. }
  split; [done|]. split; [|done].
  eapply Forall_impl; [exact Hw|]. intros [a acct]. simpl.
  assert (Hchk : account_at (checkpoint st w0) st a = account_at w0 st a).
  { unfold account_at, checkpoint.
    by rewrite state_at_log, state_at_alter by done. }
  by rewrite Hchk.
Qed.

(** When no precompile account is empty the loop only reads. *)
Lemma prime_all_nothing_to_do (st : loc) (ks : list string) (w : World) :
  (forall k, k ∈ ks -> isEmpty (account_at w st (Address_fromHex k)) = false) ->
  states (foldl (prime_precompile st) w ks) = states w /\
  trace (foldl (prime_precompile st) w ks)
  = trace w ++ ((fun k => Call_getAccount st (Address_fromHex k)) <$> ks).
Proof.
  revert w. induction ks as [|k ks IH]; intros w Hfull.
  - cbn [foldl]. by rewrite app_nil_r.
  - cbn [foldl].
    assert (Hstep : prime_precompile st w k
                    = log (Call_getAccount st (Address_fromHex k)) w).
    { unfold prime_precompile, getAccount.
      fold (account_at w st (Address_fromHex k)).
      rewrite Hfull; [done|]. apply elem_of_cons. by left. }
    rewrite Hstep. destruct (IH (log (Call_getAccount st (Address_fromHex k)) w))
      as [Hs Ht].
    { intros k' Hk'. apply Hfull. apply elem_of_cons. by right. }
    rewrite Hs, Ht. simpl. by rewrite <- app_assoc.
Qed.

(** X9: priming twice is priming once. When the priming block runs again on
    the heap it has left (a second engine sharing the facade's store, say),
    it reads each precompile account, writes nothing, and leaves the store,
    accounts and journal, exactly as the first run left it. *)
Theorem init_precompiles_again (vm : VM) (w : World) :
  VMOpts.activatePrecompiles (_opts vm) = Some true ->
  VMOpts.stateManager (_opts vm) = None ->
  is_Some (states w !! state (eei vm)) ->
  state_at (init_precompiles vm (init_precompiles vm w)) (state (eei vm))
  = state_at (init_precompiles vm w) (state (eei vm)) /\
  trace (init_precompiles vm (init_precompiles vm w))
  = trace (init_precompiles vm w)
    ++ [Call_checkpoint (state (eei vm))]
    ++ ((fun k => Call_getAccount (state (eei vm)) (Address_fromHex k)) <$>
          getActivePrecompiles (common_at w (_common vm)))
    ++ [Call_commit (state (eei vm))].
Proof.
  intros Hact Hsm Hst. set (st := state (eei vm)).
  set (w1 := init_precompiles vm w).
  set (ks := getActivePrecompiles (common_at w (_common vm))).
  assert (Hst1 : is_Some (states w1 !! st)).
  { unfold w1, init_precompiles. rewrite Hact, Hsm. simpl.
    apply lookup_alter_is_Some.
    apply prime_all_frame. simpl. by apply lookup_alter_is_Some. }
  assert (Hks : getActivePrecompiles (common_at w1 (_common vm)) = ks).
  { unfold common_at, w1. by rewrite init_precompiles_commons. }
  assert (Hfull : forall k, k ∈ ks ->
            isEmpty (account_at (checkpoint st w1) st (Address_fromHex k)) = false).
  { intros k Hk.
    assert (Hchk : account_at (checkpoint st w1) st (Address_fromHex k)
                   = account_at w1 st (Address_fromHex k)).
    { unfold account_at, checkpoint.
      by rewrite state_at_log, state_at_alter by done. }
    rewrite Hchk. unfold w1.
    rewrite (init_precompiles_accounts vm w Hact Hsm Hst).
    rewrite decide_True by (by apply list_elem_of_fmap_2).
    apply primed_not_empty. }
  destruct (prime_all_nothing_to_do st ks (checkpoint st w1) Hfull) as [Hs Ht].
  unfold init_precompiles. rewrite Hact, Hsm.
  change (truthy_bool (Some true) && negb (truthy_obj (@None loc))) with true.
  cbv iota. fold st.
  change (common_at (checkpoint st w1) (_common vm))
    with (common_at w1 (_common vm)).
  rewrite Hks. split.
  - unfold commit. rewrite state_at_log. unfold state_at. cbn [states set_states].
    rewrite Hs. unfold checkpoint. cbn [states set_states log].
    destruct Hst1 as [s Hs1].
    rewrite lookup_total_alter_eq, lookup_alter_eq, Hs1. simpl.
    rewrite (lookup_total_correct _ _ _ Hs1). by destruct s.
  - unfold commit. cbn [trace log set_states]. rewrite Ht.
    unfold checkpoint. cbn [trace log set_states]. by rewrite <- !app_assoc.
Qed.

End PrimingFacts.

(** * Further properties of [copy] *)

Section CopyFacts.

Context `{Collaborators}.

(** The constructor on three supplied objects and nothing else: the two
    checks on the chain parameters decide which error is thrown, the last
    one being that of the facade. *)
Lemma constructor_of_objects_cases (c sm bc : loc) (w : World) :
  constructor (VMOpts.mk false false (Some c) (Some sm) (Some bc)
                         None None None None None None) w
  = match List.find (fun eip => negb (includes supportedEIPs eip))
                    (eips (common_at w c)) with
    | Some eip => inl (UnsupportedAmendment eip)
    | None =>
        if decide (hardfork (common_at w c) ∈ supportedHardforks)
        then inl (ReferenceError "TransientStorage")
        else inl (UnsupportedRuleSet (hardfork (common_at w c)))
    end.
Proof.
  unfold constructor, mbind, M_bind, rejectLegacy, setupCommon. simpl.
  destruct (List.find _ _); [done|].
  rewrite checkHardfork_spec. by destruct (decide _).
Qed.

Lemma copy_creates (vm : VM) (w : World) :
  copy vm w
  = create (VMOpts.mk false false (Some (fresh (dom (commons w))))
                      (Some (fresh (dom (states w))))
                      (Some (fresh (dom (chains w))))
                      None None None None None None)
           (clones vm w).
Proof.
  unfold copy.
  rewrite (bind_returns _ _ w
             (set_states <[fresh (dom (states w)) := state_at w (stateManager vm)]> w)
             (fresh (dom (states w)))) by done.
  rewrite (bind_returns _ _ _
             (set_chains <[fresh (dom (chains w)) := chain_at w (blockchain vm)]>
                (set_states <[fresh (dom (states w))
                              := state_at w (stateManager vm)]> w))
             (fresh (dom (chains w)))) by done.
  by rewrite (bind_returns _ _ _ (clones vm w) (fresh (dom (commons w)))).
Qed.

Lemma clones_common (vm : VM) (w : World) :
  common_at (clones vm w) (fresh (dom (commons w))) = common_at w (_common vm).
Proof. unfold common_at, clones. simpl. by rewrite lookup_total_insert_eq. Qed.

(** X10: [copy()] returns no engine. It clones the three objects and calls
    [VM.create] without [eei], so that the constructor, once its checks on
    the cloned chain parameters have passed, evaluates the undeclared
    [TransientStorage]: for every engine and every heap [copy()] throws.
    The error is the ReferenceError when the engine's chain parameters, as
    they are now, pass the two checks; the unsupported-amendment error for
    the first of their amendments outside [supportedEIPs] when there is
    one; and otherwise the unsupported-rule-set error for their tag. *)
Theorem copy_never_returns (vm : VM) (w : World) :
  (exists e, copy vm w = inl e) /\
  (supported (common_at w (_common vm)) ->
   copy vm w = inl (ReferenceError "TransientStorage")) /\
  (forall eip pre post,
     eips (common_at w (_common vm)) = pre ++ eip :: post ->
     Forall (fun e => e ∈ supportedEIPs) pre ->
     eip ∉ supportedEIPs ->
     copy vm w = inl (UnsupportedAmendment eip)) /\
  (Forall (fun e => e ∈ supportedEIPs) (eips (common_at w (_common vm))) ->
   hardfork (common_at w (_common vm)) ∉ supportedHardforks ->
   copy vm w = inl (UnsupportedRuleSet (hardfork (common_at w (_common vm))))).
Proof.
  rewrite copy_creates. unfold create, mbind, M_bind.
  rewrite constructor_of_objects_cases, clones_common.
  split; [|split; [|split]].
  - destruct (List.find _ _); [eauto|]. destruct (decide _); eauto.
  - intros [Heips Hhf]. rewrite (find_unsupported_none _ Heips).
    by rewrite decide_True.
  - intros eip pre post Hl Hpre Hout.
    assert (Hfind : List.find (fun e => negb (includes supportedEIPs e))
                      (eips (common_at w (_common vm))) = Some eip).
    { apply find_unsupported_first. by exists pre, post. }
    by rewrite Hfind.
  - intros Heips Hhf. rewrite (find_unsupported_none _ Heips).
    by rewrite decide_False.
Qed.

End CopyFacts.

(** * Further properties of the secure trie *)

Section SecureTrieMoreFacts.

Variable keccak256 : Buffer -> Buffer.
Variable rootOf : gmap Buffer Buffer -> Buffer.

Local Abbreviation get := (SecureTrie.get keccak256).
Local Abbreviation put := (SecureTrie.put keccak256).
Local Abbreviation del := (SecureTrie.del keccak256).
Local Abbreviation root := (SecureTrie.root rootOf).

Lemma put_content (t : SecureTrie.Trie) (key : Buffer) (val : SecureTrie.JsVal) :
  SecureTrie.content (put t key val)
  = match stored val with
    | Some b => <[keccak256 key := b]> (SecureTrie.content t)
    | None => delete (keccak256 key) (SecureTrie.content t)
    end.
Proof. by destruct val as [| |[|x b]]. Qed.

(** X12: reading after a write. After [put(key, val)], [get(key')] returns:
    for a key with the hash of [key] (the key itself, or one colliding with
    it), the buffer stored if [val] is a non-empty buffer and [null] if it
    is empty or falsy; for any other key, what it returned before. After
    [del(key)] it returns [null] for the keys with the hash of [key], and
    for any other key what it returned before. *)
Theorem get_after_write (t : SecureTrie.Trie) (key key' : Buffer)
    (val : SecureTrie.JsVal) :
  get (put t key val) key'
  = (if decide (keccak256 key' = keccak256 key) then stored val else get t key')
  /\
  get (del t key) key'
  = (if decide (keccak256 key' = keccak256 key) then None else get t key').
Proof.
  unfold SecureTrie.get, SecureTrie.Trie_get. rewrite put_content.
  unfold SecureTrie.del, SecureTrie.Trie_del. cbn [SecureTrie.content].
  destruct (decide (keccak256 key' = keccak256 key)) as [->|Hne].
  - split; [|apply lookup_delete_eq].
    destruct (stored val); [apply lookup_insert_eq | apply lookup_delete_eq].
  - split; [|by apply lookup_delete_ne].
    destruct (stored val); [by apply lookup_insert_ne | by apply lookup_delete_ne].
Qed.

(** X13: the last write wins. Two writes at one key leave the trie that the
    second alone leaves, whether each stores or deletes. *)
Theorem put_overwrites (t : SecureTrie.Trie) (key : Buffer)
    (val1 val2 : SecureTrie.JsVal) :
  put (put t key val1) key val2 = put t key val2.
Proof.
  destruct t as [m].
  assert (Hc : SecureTrie.content (put (put (SecureTrie.mkTrie m) key val1) key val2)
               = SecureTrie.content (put (SecureTrie.mkTrie m) key val2)).
  { rewrite !put_content. simpl.
    destruct (stored val1), (stored val2).
    - apply insert_insert_eq.
    - apply delete_insert_eq.
    - apply insert_delete_eq.
    - apply delete_delete_eq. }
  destruct (put (put _ _ _) _ _), (put _ _ val2). simpl in Hc. by rewrite Hc.
Qed.

(** X14: storing a value at a key that is not set and then storing the
    empty buffer there gives back the trie, and so the root, from before
    the two writes. *)
Theorem put_then_delete_restores (t : SecureTrie.Trie) (key : Buffer)
    (val : SecureTrie.JsVal) :
  get t key = None ->
  put (put t key val) key (SecureTrie.VBuffer []) = t /\
  root (put (put t key val) key (SecureTrie.VBuffer [])) = root t.
Proof.
  intros Hunset.
  assert (Hback : put (put t key val) key (SecureTrie.VBuffer []) = t).
  { destruct t as [m].
    assert (Hc : SecureTrie.content
                   (put (put (SecureTrie.mkTrie m) key val) key (SecureTrie.VBuffer []))
                 = m).
    { rewrite !put_content. simpl.
      destruct (stored val).
      - rewrite delete_insert_eq. by apply delete_id.
      - rewrite delete_delete_eq. by apply delete_id. }
    destruct (put (put _ _ _) _ _). simpl in Hc. by rewrite Hc. }
  by rewrite Hback.
Qed.

Lemma put_no_empty_value (t : SecureTrie.Trie) (key : Buffer)
    (val : SecureTrie.JsVal) :
  no_empty_value t -> no_empty_value (put t key val).
Proof.
  intros Ht h. rewrite put_content.
  destruct (decide (h = keccak256 key)) as [->|Hne].
  - destruct val as [| |[|x b]]; simpl;
      rewrite ?lookup_delete_eq, ?lookup_insert_eq; eauto.
  - destruct (stored val);
      rewrite ?lookup_delete_ne, ?lookup_insert_ne by done; apply Ht.
Qed.

Lemma del_no_empty_value (t : SecureTrie.Trie) (key : Buffer) :
  no_empty_value t -> no_empty_value (del t key).
Proof.
  intros Ht h. unfold SecureTrie.del, SecureTrie.Trie_del. simpl.
  destruct (decide (h = keccak256 key)) as [->|Hne].
  - rewrite lookup_delete_eq. by left.
  - rewrite lookup_delete_ne by done. apply Ht.
Qed.

(** X15: no empty value is ever stored. On a trie built from the empty one
    by any sequence of [put] and [del], with any values, [get] returns
    [null] or a buffer of at least one byte, never the empty buffer. *)
Theorem no_empty_value_stored (ops : list SecureTrieOps.Op) (key : Buffer) :
  get (SecureTrieOps.run keccak256 ops (SecureTrie.mkTrie ∅)) key = None \/
  exists x b,
    get (SecureTrieOps.run keccak256 ops (SecureTrie.mkTrie ∅)) key = Some (x :: b).
Proof.
  assert (Hinv : forall t, no_empty_value t ->
                   no_empty_value (SecureTrieOps.run keccak256 ops t)).
  { unfold SecureTrieOps.run. induction ops as [|op ops IH]; intros t Ht; [done|].
    cbn [foldl]. apply IH. destruct op as [k v|k]; simpl.
    - by apply put_no_empty_value.
    - by apply del_no_empty_value. }
  apply (Hinv (SecureTrie.mkTrie ∅)). intros h. left. apply lookup_empty.
Qed.

End SecureTrieMoreFacts.

Section SecureTrieStaticFacts.

Variable keccak256 : Buffer -> Buffer.
Variable rootOf : gmap Buffer Buffer -> Buffer.
Variable Proof : Type.
Variable Trie_createProof : SecureTrie.Trie -> Buffer -> Proof.
Variable Trie_verifyProof : Buffer -> Buffer -> Proof -> option (option Buffer).

(** X16: a proof made by [prove] or [createProof] for a key verifies for
    that key. If the base trie's [verifyProof] returns, for the proof its
    [createProof] makes at a key and the root of the trie, the value the
    trie holds there, then the secure trie's [verifyProof], given the
    unhashed key and the proof that [prove] made for it, returns what [get]
    returns; a proof made for a key serves any key with the same hash. *)
Theorem verifyProof_prove (t : SecureTrie.Trie) (key key' : Buffer) :
  (forall h, Trie_verifyProof (SecureTrie.root rootOf t) h (Trie_createProof t h)
             = Some (SecureTrie.Trie_get t h)) ->
  keccak256 key' = keccak256 key ->
  SecureTrieStatic.verifyProof keccak256 Proof Trie_verifyProof
    (SecureTrie.root rootOf t) key'
    (SecureTrieStatic.prove keccak256 Proof Trie_createProof t key)
  = Some (SecureTrie.get keccak256 t key) /\
  SecureTrieStatic.prove keccak256 Proof Trie_createProof t key
  = SecureTrieStatic.createProof keccak256 Proof Trie_createProof t key'.
Proof.
  intros Hbase Hhash.
  unfold SecureTrieStatic.verifyProof, SecureTrieStatic.prove,
    SecureTrieStatic.createProof, SecureTrie.get.
  rewrite Hhash. split; [apply Hbase|done].
Qed.

End SecureTrieStaticFacts.

(** * Further concrete runs *)

Example facade_constructor :
  constructor facadeOpts facadeWorld = inr (facadeVM, facadeBuiltWorld).
Proof. reflexivity. Qed.

(** The constructor on [facadeOpts]: the chain parameters at location 1 are
    held as given, a state store is created at the new location 3, and no
    call is made. *)
Lemma constructor_allocates_only_witness :
  constructor facadeOpts facadeWorld = inr (facadeVM, facadeBuiltWorld) /\
  trace facadeBuiltWorld = [] /\
  (_common facadeVM = 1%positive /\
   commons facadeBuiltWorld = commons facadeWorld) /\
  (states facadeWorld !! 3%positive = None /\
   states facadeBuiltWorld
   = <[3%positive := DefaultStateManager_new 1]> (states facadeWorld)).
Proof.
  destruct (constructor_allocates_only facadeOpts facadeWorld facadeBuiltWorld
              facadeVM eq_refl) as (Htrace & _ & Hcommon & Hstore & _).
  split; [reflexivity|]. split; [exact Htrace|].
  split; [exact Hcommon|exact Hstore].
Defined.


(** After [init] on [sampleVM] neither precompile account is empty. *)
Lemma init_leaves_precompiles_non_empty_witness :
  (_isInitialized sampleVM = false /\
   VMOpts.activatePrecompiles (_opts sampleVM) = Some true /\
   VMOpts.stateManager (_opts sampleVM) = None /\
   is_Some (states sampleWorld !! state (eei sampleVM))) /\
  isEmpty (account_at (init sampleVM sampleWorld).2 1
             (Buffer_fromHex "0000000000000000000000000000000000000001")) = false /\
  isEmpty (account_at (init sampleVM sampleWorld).2 1
             (Buffer_fromHex "0000000000000000000000000000000000000002")) = false.
Proof.
  assert (Hst : is_Some (states sampleWorld !! state (eei sampleVM))).
  { eexists. reflexivity. }
  pose proof (init_leaves_precompiles_non_empty sampleVM sampleWorld
                eq_refl eq_refl eq_refl Hst) as Hall.
  split; [split; [reflexivity|split; [reflexivity|split; [reflexivity|exact Hst]]]|].
  split.
  - apply (Hall "0000000000000000000000000000000000000001"%string).
    apply includes_spec. reflexivity.
  - apply (Hall "0000000000000000000000000000000000000002"%string).
    apply includes_spec. reflexivity.
Defined.

(** Priming on [sampleVM] keeps nonce, code hash and storage root of the
    first precompile account and of the account funded by genesis. *)
Lemma init_priming_preserves_accounts_witness :
  (_isInitialized sampleVM = false /\
   VMOpts.activatePrecompiles (_opts sampleVM) = Some true /\
   VMOpts.stateManager (_opts sampleVM) = None /\
   is_Some (states sampleWorld !! state (eei sampleVM))) /\
  nonce (account_at (init sampleVM sampleWorld).2 1
           (Buffer_fromHex "0000000000000000000000000000000000000001")) = 0 /\
  codeHash (account_at (init sampleVM sampleWorld).2 1 sampleGenesisAddress)
  = Buffer_fromHex "c5d2".
Proof.
  assert (Hst : is_Some (states sampleWorld !! state (eei sampleVM))).
  { eexists. reflexivity. }
  pose proof (init_priming_preserves_accounts sampleVM sampleWorld
                eq_refl eq_refl eq_refl Hst) as Hall.
  split; [split; [reflexivity|split; [reflexivity|split; [reflexivity|exact Hst]]]|].
  split.
  - destruct (Hall (Buffer_fromHex "0000000000000000000000000000000000000001"))
      as (Hnonce & _).
    exact Hnonce.
  - destruct (Hall sampleGenesisAddress) as (_ & Hcode & _).
    exact Hcode.
Defined.

(** The priming calls of [init] on [sampleVM]: between the checkpoint and
    the commit, the two precompile accounts are read in order. *)
Lemma init_priming_calls_witness :
  (_isInitialized sampleVM = false /\
   VMOpts.activatePrecompiles (_opts sampleVM) = Some true /\
   VMOpts.stateManager (_opts sampleVM) = None /\
   is_Some (states sampleWorld !! state (eei sampleVM))) /\
  exists calls,
    trace (init sampleVM sampleWorld).2
    = [Call_blockchain_init 1; Call_generateCanonicalGenesis 1]
      ++ [Call_checkpoint 1] ++ calls ++ [Call_commit 1] /\
    reads calls
    = [Buffer_fromHex "0000000000000000000000000000000000000001";
       Buffer_fromHex "0000000000000000000000000000000000000002"] /\
    NoDup (writes calls).*1.
Proof.
  assert (Hst : is_Some (states sampleWorld !! state (eei sampleVM))).
  { eexists. reflexivity. }
  destruct (init_priming_calls sampleVM sampleWorld eq_refl eq_refl eq_refl Hst)
    as (calls & Htrace & Hreads & _ & Hnodup).
  split; [split; [reflexivity|split; [reflexivity|split; [reflexivity|exact Hst]]]|].
  exists calls.
  split; [exact Htrace|]. split; [exact Hreads|exact Hnodup].
Defined.

(** Priming [sampleVM] again on the heap [init] has left changes nothing in
    the store. *)
Lemma init_precompiles_again_witness :
  (VMOpts.activatePrecompiles (_opts sampleVM) = Some true /\
   VMOpts.stateManager (_opts sampleVM) = None /\
   is_Some (states sampleWorld !! state (eei sampleVM))) /\
  state_at (init_precompiles sampleVM (init_precompiles sampleVM sampleWorld)) 1
  = state_at (init_precompiles sampleVM sampleWorld) 1.
Proof.
  assert (Hst : is_Some (states sampleWorld !! state (eei sampleVM))).
  { eexists. reflexivity. }
  destruct (init_precompiles_again sampleVM sampleWorld eq_refl eq_refl Hst)
    as (Hsame & _).
  split; [split; [reflexivity|split; [reflexivity|exact Hst]]|].
  exact Hsame.
Defined.

(** Storing three bytes at an unset key of [sampleTrie] and then the empty
    buffer gives back [sampleTrie]. *)
Lemma put_then_delete_restores_witness :
  SecureTrie.get SecureTrie.sampleHash SecureTrie.sampleTrie [Byte.x07; Byte.x08]
  = None /\
  SecureTrie.put SecureTrie.sampleHash
    (SecureTrie.put SecureTrie.sampleHash SecureTrie.sampleTrie
       [Byte.x07; Byte.x08]
       (SecureTrie.VBuffer [Byte.x01; Byte.x02; Byte.x03]))
    [Byte.x07; Byte.x08] (SecureTrie.VBuffer [])
  = SecureTrie.sampleTrie.
Proof.
  split; [reflexivity|].
  exact (proj1 (put_then_delete_restores SecureTrie.sampleHash
                  SecureTrie.sampleRootOf SecureTrie.sampleTrie
                  [Byte.x07; Byte.x08]
                  (SecureTrie.VBuffer [Byte.x01; Byte.x02; Byte.x03]) eq_refl)).
Defined.

Lemma verifyProof_prove_witness :
  (forall h,
     sampleVerifyProof
       (SecureTrie.root SecureTrie.sampleRootOf SecureTrie.sampleTrie) h
       (sampleCreateProof SecureTrie.sampleTrie h)
     = Some (SecureTrie.Trie_get SecureTrie.sampleTrie h)) /\
  SecureTrieStatic.verifyProof SecureTrie.sampleHash (gmap Buffer Buffer)
    sampleVerifyProof
    (SecureTrie.root SecureTrie.sampleRootOf SecureTrie.sampleTrie)
    [Byte.x07; Byte.x08]
    (SecureTrieStatic.prove SecureTrie.sampleHash (gmap Buffer Buffer)
       sampleCreateProof SecureTrie.sampleTrie [Byte.x07; Byte.x08])
  = Some (SecureTrie.get SecureTrie.sampleHash SecureTrie.sampleTrie
            [Byte.x07; Byte.x08]).
Proof.
  assert (Hbase : forall h,
            sampleVerifyProof
              (SecureTrie.root SecureTrie.sampleRootOf SecureTrie.sampleTrie) h
              (sampleCreateProof SecureTrie.sampleTrie h)
            = Some (SecureTrie.Trie_get SecureTrie.sampleTrie h)).
  { intros h. unfold sampleVerifyProof, sampleCreateProof, SecureTrie.root.
    by rewrite decide_True. }
  split; [exact Hbase|].
  exact (proj1 (verifyProof_prove SecureTrie.sampleHash SecureTrie.sampleRootOf
                  (gmap Buffer Buffer) sampleCreateProof sampleVerifyProof
                  SecureTrie.sampleTrie [Byte.x07; Byte.x08] [Byte.x07; Byte.x08]
                  Hbase eq_refl)).
Defined.
